(** * Record comparison scripts of the MB2000 conversion: a shallow embedding

    The Python scripts [detailed_comparison.py], [shift_analysis.py] and
    [field_accuracy_analysis.py] are embedded as Rocq functions.  Python
    integers are [Z], [str] is [string], [bytes] is [list byte], a list is a
    [list]; the dictionaries built with a fixed set of keys are records.
    The characters of a string are [ascii]: the scripts only test characters
    and strings for equality.
    Operations that can raise ([IndexError], [ZeroDivisionError]) live in the
    error monad [Py.result], so that "never raises" is a theorem and not an
    assumption.  The true division [/] of Python yields a float; it is
    represented here by the exact rational it approximates ([Q]).  Console
    output is represented by the list of rows a loop prints. *)

From Stdlib Require Import List Strings.String Strings.Ascii Strings.Byte Bool ZArith QArith Lia.
Import ListNotations.

Local Open Scope Z_scope.

(** ** The Python primitives the scripts use *)

Module Py.

Inductive exn : Type := IndexError | ZeroDivisionError.

Inductive result (A : Type) : Type :=
| Ok (a : A)
| Raise (e : exn).

Arguments Ok {A} a.
Arguments Raise {A} e.

Definition bind {A B} (m : result A) (k : A -> result B) : result B :=
  match m with
  | Ok a => k a
  | Raise e => Raise e
  end.

(** [len(l)] *)
Definition len {A} (l : list A) : Z := Z.of_nat (List.length l).

(** [l[i]]: a negative index counts from the end, anything outside
    [-len(l) .. len(l)-1] raises [IndexError]. *)
Definition index {A} (l : list A) (i : Z) : result A :=
  let j := if i <? 0 then i + len l else i in
  if (0 <=? j) && (j <? len l) then
    match nth_error l (Z.to_nat j) with
    | Some x => Ok x
    | None => Raise IndexError
    end
  else Raise IndexError.

(** The element [l[i]] reads when [0 <= i < len(l)] (and [d] elsewhere);
    used to state what the loops compute. *)
Definition item {A} (d : A) (l : list A) (i : Z) : A := nth (Z.to_nat i) l d.

(** [range(a, b)]: empty when [b <= a]. *)
Definition range (a b : Z) : list Z :=
  map (fun k => a + Z.of_nat k) (seq 0 (Z.to_nat (b - a))).

(** How a slice bound is adjusted to the length [n] of the sequence. *)
Definition clamp (n x : Z) : Z :=
  if x <? 0 then Z.max 0 (x + n) else Z.min x n.

(** [l[start:stop]] *)
Definition slice {A} (l : list A) (start stop : Z) : list A :=
  let s := clamp (len l) start in
  let e := clamp (len l) stop in
  firstn (Z.to_nat (e - s)) (skipn (Z.to_nat s) l).

(** [a // b] on integers (floor division). *)
Definition floordiv (a b : Z) : result Z :=
  if b =? 0 then Raise ZeroDivisionError else Ok (a / b).

(** [a / b] on integers (true division), as an exact rational. *)
Definition truediv (a b : Z) : result Q :=
  if b =? 0 then Raise ZeroDivisionError
  else Ok (inject_Z a / inject_Z b)%Q.

(** [s.split(sep)] for a one-character separator: every occurrence of
    [sep] ends a field, and the text after the last one is the last
    field. *)
Fixpoint split (sep : ascii) (s : string) : list string :=
  match s with
  | EmptyString => [EmptyString]
  | String c rest =>
      if Ascii.eqb c sep then EmptyString :: split sep rest
      else
        match split sep rest with
        | [] => [String c EmptyString]
        | f :: fs => String c f :: fs
        end
  end.

(** [sep.join(fields)] *)
Fixpoint join (sep : ascii) (fields : list string) : string :=
  match fields with
  | [] => EmptyString
  | [f] => f
  | f :: fs => (f ++ String sep (join sep fs))%string
  end.

(** [for x in xs: st = body(x, st)] *)
Fixpoint for_each {X S} (xs : list X) (st : S) (body : X -> S -> result S)
  : result S :=
  match xs with
  | [] => Ok st
  | x :: rest => bind (body x st) (fun st' => for_each rest st' body)
  end.

(** Number of occurrences of a character in a string. *)
Fixpoint count_char (c : ascii) (s : string) : nat :=
  match s with
  | EmptyString => O
  | String d rest => ((if Ascii.eqb d c then 1 else 0) + count_char c rest)%nat
  end.

(** [c in s] for a character. *)
Fixpoint contains (c : ascii) (s : string) : bool :=
  match s with
  | EmptyString => false
  | String d rest => Ascii.eqb d c || contains c rest
  end.

End Py.

Import Py.

Declare Scope py_scope.
Notation "x <- m ;; k" := (Py.bind m (fun x => k))
  (at level 61, m at next level, right associativity) : py_scope.
Local Open Scope py_scope.

(** ** Positions of two field sequences

    Vocabulary for the statements: the field at a 0-based position and
    whether two sequences hold the same value there. *)

Definition field_at (fields : list string) (i : Z) : string :=
  item EmptyString fields i.

Definition agree (our_fields expected_fields : list string) (i : Z) : bool :=
  String.eqb (field_at our_fields i) (field_at expected_fields i).

Definition differ (our_fields expected_fields : list string) (i : Z) : bool :=
  negb (agree our_fields expected_fields i).

(** ** detailed_comparison.py *)

Module DetailedComparison.

Definition pipe : ascii := "|"%char.

(** [parse_record(record)] *)
Definition parse_record (record : string) : result (string * list string) :=
  let fields := split pipe record in
  if len fields >=? 3 then
    record_type <- index fields 2 ;;
    Ok (record_type, fields)
  else Ok ("UNKNOWN"%string, fields).

(** The dictionaries appended to ['mismatches'], ['missing_fields'] and
    ['extra_fields'].  The key ['field_index'] of each gets a prefix. *)
Record mismatch : Type := Mismatch {
  mm_field_index : Z;
  mm_our_value : string;
  mm_expected_value : string
}.

Record missing_field : Type := Missing {
  mf_field_index : Z;
  mf_expected_value : string
}.

Record extra_field : Type := Extra {
  ef_field_index : Z;
  ef_our_value : string
}.

(** The dictionary [comparison]. *)
Record comparison : Type := Comparison {
  record_type : string;
  our_field_count : Z;
  expected_field_count : Z;
  matches : Z;
  mismatches : list mismatch;
  missing_fields : list missing_field;
  extra_fields : list extra_field
}.

Definition incr_matches (c : comparison) : comparison :=
  Comparison (record_type c) (our_field_count c) (expected_field_count c)
    (matches c + 1) (mismatches c) (missing_fields c) (extra_fields c).

Definition append_mismatch (m : mismatch) (c : comparison) : comparison :=
  Comparison (record_type c) (our_field_count c) (expected_field_count c)
    (matches c) (mismatches c ++ [m]) (missing_fields c) (extra_fields c).

Definition append_missing (m : missing_field) (c : comparison) : comparison :=
  Comparison (record_type c) (our_field_count c) (expected_field_count c)
    (matches c) (mismatches c) (missing_fields c ++ [m]) (extra_fields c).

Definition append_extra (e : extra_field) (c : comparison) : comparison :=
  Comparison (record_type c) (our_field_count c) (expected_field_count c)
    (matches c) (mismatches c) (missing_fields c) (extra_fields c ++ [e]).

(** Body of the loop over the common fields. *)
Definition common_body (our_fields expected_fields : list string)
    (i : Z) (c : comparison) : result comparison :=
  a <- index our_fields i ;;
  b <- index expected_fields i ;;
  if String.eqb a b then Ok (incr_matches c)
  else Ok (append_mismatch (Mismatch (i + 1) a b) c).

Definition missing_body (expected_fields : list string)
    (i : Z) (c : comparison) : result comparison :=
  b <- index expected_fields i ;;
  Ok (append_missing (Missing (i + 1) b) c).

Definition extra_body (our_fields : list string)
    (i : Z) (c : comparison) : result comparison :=
  a <- index our_fields i ;;
  Ok (append_extra (Extra (i + 1) a) c).

(** [compare_fields(our_fields, expected_fields, record_type)] *)
Definition compare_fields (our_fields expected_fields : list string)
    (rtype : string) : result comparison :=
  let c0 := Comparison rtype (len our_fields) (len expected_fields) 0 [] [] [] in
  c1 <- for_each (range 0 (Z.min (len our_fields) (len expected_fields))) c0
          (common_body our_fields expected_fields) ;;
  c2 <- (if len expected_fields >? len our_fields then
           for_each (range (len our_fields) (len expected_fields)) c1
             (missing_body expected_fields)
         else Ok c1) ;;
  c3 <- (if len our_fields >? len expected_fields then
           for_each (range (len expected_fields) (len our_fields)) c2
             (extra_body our_fields)
         else Ok c2) ;;
  Ok c3.

(** The entries the comparison records for position [i] (0-based), for
    the statements below. *)
Definition mismatch_at (our_fields expected_fields : list string) (i : Z) : mismatch :=
  Mismatch (i + 1) (field_at our_fields i) (field_at expected_fields i).

Definition missing_at (expected_fields : list string) (i : Z) : missing_field :=
  Missing (i + 1) (field_at expected_fields i).

Definition extra_at (our_fields : list string) (i : Z) : extra_field :=
  Extra (i + 1) (field_at our_fields i).

(** The state of the comparison after the loop over the common fields has
    visited [indices], starting from [c]. *)
Definition common_result (our_fields expected_fields : list string)
    (c : comparison) (indices : list Z) : comparison :=
  Comparison (record_type c) (our_field_count c) (expected_field_count c)
    (matches c + len (filter (agree our_fields expected_fields) indices))
    (mismatches c
       ++ map (mismatch_at our_fields expected_fields)
            (filter (differ our_fields expected_fields) indices))
    (missing_fields c) (extra_fields c).

(** A mismatch read from the other side. *)
Definition swap (m : mismatch) : mismatch :=
  Mismatch (mm_field_index m) (mm_expected_value m) (mm_our_value m).

(** The table [ranges] of [analyze_primary_record]. *)
Definition ranges : list (Z * Z * string) :=
  [ (1, 20, "Header and Identifiers"%string);
    (21, 50, "Address and Contact"%string);
    (51, 100, "Financial Data 1"%string);
    (101, 150, "Financial Data 2"%string);
    (151, 200, "System Fields 1"%string);
    (201, 300, "Extended Fields"%string);
    (301, 400, "Compliance Fields"%string);
    (401, 500, "Additional Fields"%string);
    (501, 533, "Trailing Fields"%string) ].

(** A line of the field range analysis, as printed. *)
Record range_row : Type := RangeRow {
  rr_description : string;
  rr_start : Z;
  rr_end : Z;
  rr_matches : Z;
  rr_total : Z;
  rr_match_pct : Q
}.

(** Body of the inner loop: counts [range_matches] and
    [range_mismatches]. *)
Definition range_body (our_fields expected_fields : list string)
    (i : Z) (st : Z * Z) : result (Z * Z) :=
  a <- index our_fields i ;;
  b <- index expected_fields i ;;
  if String.eqb a b then Ok (fst st + 1, snd st) else Ok (fst st, snd st + 1).

(** Body of [for start, end, description in ranges]: the row is printed
    only under the guard [total_range > 0]. *)
Definition range_step (our_fields expected_fields : list string)
    (r : Z * Z * string) (printed : list range_row) : result (list range_row) :=
  let '(start, end_, description) := r in
  let stop := Z.min end_ (Z.min (len our_fields) (len expected_fields)) in
  counts <- for_each (range (start - 1) stop) (0, 0)
              (range_body our_fields expected_fields) ;;
  let total_range := stop - (start - 1) in
  if total_range >? 0 then
    q <- truediv (fst counts) total_range ;;
    Ok (printed ++ [RangeRow description start end_ (fst counts) total_range
                      (q * inject_Z 100)%Q])
  else Ok printed.

Definition range_analysis (rs : list (Z * Z * string))
    (our_fields expected_fields : list string) : result (list range_row) :=
  for_each rs [] (range_step our_fields expected_fields).

(** The range a row was printed for. *)
Definition range_of_row (row : range_row) : Z * Z * string :=
  (rr_start row, rr_end row, rr_description row).

(** What the range loop is shown to print for one range: a row when the
    range overlaps both sequences, nothing otherwise. *)
Definition range_overlap (our_fields expected_fields : list string)
    (r : Z * Z * string) : Z :=
  Z.min (snd (fst r)) (Z.min (len our_fields) (len expected_fields))
  - (fst (fst r) - 1).

Definition range_agreeing (our_fields expected_fields : list string)
    (r : Z * Z * string) : Z :=
  len (filter (agree our_fields expected_fields)
         (range (fst (fst r) - 1)
            (Z.min (snd (fst r)) (Z.min (len our_fields) (len expected_fields))))).

Definition range_report (our_fields expected_fields : list string)
    (r : Z * Z * string) : list range_row :=
  if range_overlap our_fields expected_fields r >? 0 then
    [RangeRow (snd r) (fst (fst r)) (snd (fst r))
       (range_agreeing our_fields expected_fields r)
       (range_overlap our_fields expected_fields r)
       (inject_Z (range_agreeing our_fields expected_fields r)
        / inject_Z (range_overlap our_fields expected_fields r)
        * inject_Z 100)%Q]
  else [].

(** [analyze_primary_record(our_primary, expected_primary)]: the
    comparison it returns and the range lines it prints.  The listing of the
    mismatches among the first 50 fields only prints and is left out. *)
Definition analyze_primary_record (our_primary expected_primary : string)
  : result (comparison * list range_row) :=
  p1 <- parse_record our_primary ;;
  p2 <- parse_record expected_primary ;;
  c <- compare_fields (snd p1) (snd p2) "P"%string ;;
  rows <- range_analysis ranges (snd p1) (snd p2) ;;
  Ok (c, rows).

(** The count of the mismatches among the first 50 fields in
    [analyze_primary_record] ([critical_mismatches]). *)
Definition critical_body (our_fields expected_fields : list string)
    (i : Z) (critical : Z) : result Z :=
  a <- index our_fields i ;;
  b <- index expected_fields i ;;
  if negb (String.eqb a b) then Ok (critical + 1) else Ok critical.

Definition critical_mismatches (our_fields expected_fields : list string)
  : result Z :=
  for_each (range 0 (Z.min 50 (Z.min (len our_fields) (len expected_fields)))) 0
    (critical_body our_fields expected_fields).

(** The search for the primary record in [main]: the first record whose
    record type is ['P'] ([break]). *)
Fixpoint find_primary (our_records : list string) : result (option string) :=
  match our_records with
  | [] => Ok None
  | record :: rest =>
      p <- parse_record record ;;
      if String.eqb (fst p) "P" then Ok (Some record) else find_primary rest
  end.

(** The match percentage of the summary in [main]; nothing is printed
    when [expected_field_count] is 0. *)
Definition match_percentage (analysis : comparison) : result (option Q) :=
  if expected_field_count analysis >? 0 then
    q <- truediv (matches analysis) (expected_field_count analysis) ;;
    Ok (Some (q * inject_Z 100)%Q)
  else Ok None.

(** [main()], on the records read from our file and the stripped content
    of the expected file: [None] when the script returns before the analysis,
    otherwise the comparison and the match percentage of the summary.  The
    listings of the first 20 mismatches and of the fields 10-15 only print
    and are left out. *)
Definition main (our_records : list string) (expected_content : string)
  : result (option (comparison * option Q)) :=
  match our_records with
  | [] => Ok None
  | _ =>
      our_primary <- find_primary our_records ;;
      match our_primary with
      | None => Ok None
      | Some record =>
          if String.eqb record EmptyString then Ok None
          else
            res <- analyze_primary_record record expected_content ;;
            pct <- match_percentage (fst res) ;;
            Ok (Some (fst res, pct))
      end
  end.

(** A record that [main] takes for a primary record: it has at least
    three fields and the third is [P]. *)
Definition is_primary (record : string) : bool :=
  (3 <=? len (split pipe record))
  && String.eqb (field_at (split pipe record) 2) "P".

(** Vocabulary for the statements about the table of ranges: the ranges
    follow one another from position [s] on, and where the last one ends. *)
Fixpoint chained (s : Z) (rs : list (Z * Z * string)) : Prop :=
  match rs with
  | [] => True
  | r :: rest =>
      fst (fst r) = s /\ s - 1 <= snd (fst r) /\ chained (snd (fst r) + 1) rest
  end.

Fixpoint chain_end (s : Z) (rs : list (Z * Z * string)) : Z :=
  match rs with
  | [] => s - 1
  | r :: rest => chain_end (snd (fst r) + 1) rest
  end.

End DetailedComparison.

(** ** shift_analysis.py *)

Module ShiftAnalysis.

Definition pipe : ascii := "|"%char.

(** A line "Generated field .. matches expected field .. (offset: ..)". *)
Record shift_row : Type := ShiftRow {
  sr_generated_field : Z;
  sr_expected_field : Z;
  sr_offset : Z
}.

(** The loop that finds the first difference; it leaves at the first
    index where the two fields differ ([break]). *)
Fixpoint first_diff_loop (generated_fields expected_fields : list string)
    (indices : list Z) : result (option Z) :=
  match indices with
  | [] => Ok None
  | i :: rest =>
      a <- index generated_fields i ;;
      b <- index expected_fields i ;;
      if negb (String.eqb a b) then Ok (Some (i + 1))
      else first_diff_loop generated_fields expected_fields rest
  end.

(** Body of [for offset in range(-3, 4)]; there is no [break], every
    matching offset prints its line. *)
Definition probe_body (generated_fields expected_fields : list string)
    (first_diff : Z) (offset : Z) (printed : list shift_row)
  : result (list shift_row) :=
  if offset =? 0 then Ok printed
  else
    let check_idx := first_diff - 1 + offset in
    if (0 <=? check_idx) && (check_idx <? len expected_fields) then
      a <- index generated_fields (first_diff - 1) ;;
      b <- index expected_fields check_idx ;;
      if String.eqb a b then
        Ok (printed ++ [ShiftRow first_diff (check_idx + 1) offset])
      else Ok printed
    else Ok printed.

(** The offsets the probe visits after skipping [0]. *)
Definition probe_offsets : list Z := [-3; -2; -1; 1; 2; 3].

(** Offset [o] is a match for the differing position [d] (0-based):
    [d + o] is an index of [expected_fields] and the field there equals
    [generated_fields[d]]. *)
Definition probe_hit (generated_fields expected_fields : list string)
    (d : Z) (o : Z) : bool :=
  (0 <=? d + o) && (d + o <? len expected_fields)
  && String.eqb (field_at generated_fields d) (field_at expected_fields (d + o)).

Definition shift_probe (generated_fields expected_fields : list string)
    (first_diff : Z) : result (list shift_row) :=
  for_each (range (-3) 4) []
    (probe_body generated_fields expected_fields first_diff).

(** [find_shift_point()], on the two record lines it reads (already
    stripped): the first difference (1-based) and the alignment lines.
    The context table printed in between computes nothing that is used
    later and is left out. *)
Definition find_shift_point (generated_record expected_record : string)
  : result (option Z * list shift_row) :=
  let generated_fields := split pipe generated_record in
  let expected_fields := split pipe expected_record in
  first_diff <- first_diff_loop generated_fields expected_fields
                  (range 0 (Z.min (len generated_fields) (len expected_fields))) ;;
  match first_diff with
  | Some d =>
      if d =? 0 then Ok (first_diff, [])
      else
        rows <- shift_probe generated_fields expected_fields d ;;
        Ok (first_diff, rows)
  | None => Ok (first_diff, [])
  end.

(** A line of the context table printed around the first difference. *)
Record context_row : Type := ContextRow {
  cr_field : Z;
  cr_generated : string;
  cr_expected : string;
  cr_diff : bool
}.

Definition context_body (generated_fields expected_fields : list string)
    (i : Z) (rows : list context_row) : result (list context_row) :=
  gen_val <- (if i <? len generated_fields then index generated_fields i
              else Ok "MISSING"%string) ;;
  exp_val <- (if i <? len expected_fields then index expected_fields i
              else Ok "MISSING"%string) ;;
  Ok (rows ++ [ContextRow (i + 1) gen_val exp_val
                 (negb (String.eqb gen_val exp_val))]).

(** The context table of [find_shift_point] for a first difference
    [first_diff] (1-based). *)
Definition context_table (generated_fields expected_fields : list string)
    (first_diff : Z) : result (list context_row) :=
  let start := Z.max 0 (first_diff - 5) in
  let end_ := Z.min (len generated_fields) (first_diff + 10) in
  for_each (range start end_) [] (context_body generated_fields expected_fields).

(** What the context table shows for the expected side at index [i]. *)
Definition expected_or_missing (expected_fields : list string) (i : Z) : string :=
  if i <? len expected_fields then field_at expected_fields i
  else "MISSING"%string.

(** The line of the context table for index [i]. *)
Definition context_row_at (generated_fields expected_fields : list string)
    (i : Z) : context_row :=
  ContextRow (i + 1) (field_at generated_fields i)
    (expected_or_missing expected_fields i)
    (negb (String.eqb (field_at generated_fields i)
             (expected_or_missing expected_fields i))).

End ShiftAnalysis.

(** ** field_accuracy_analysis.py *)

Module FieldAccuracyAnalysis.

(** The table [key_fields]. *)
Definition key_fields : list (Z * Z * string) :=
  [ (0, 3, "Client Number (503)"%string);
    (6, 12, "Binary Control Pattern"%string);
    (12, 23, "Account Number Field"%string);
    (23, 32, "Packed Decimal Pattern"%string);
    (35, 51, "Name Sample Message"%string);
    (600, 608, "Financial Field 1 (PrincipalBalance)"%string);
    (620, 628, "Financial Field 2 (PaymentAmount)"%string);
    (1950, 1955, "TranKey Field"%string);
    (1960, 1963, "TranCount Field"%string) ].

(** A line of the critical field analysis. *)
Record field_row : Type := FieldRow {
  fr_description : string;
  fr_start : Z;
  fr_end : Z;
  fr_field_length : Z;
  fr_matches : Z;
  fr_accuracy : Q
}.

(** The variables the loop over the key fields updates. *)
Record totals : Type := Totals {
  total_analyzed : Z;
  total_matching : Z;
  printed : list field_row
}.

(** [sum(1 for i in range(field_length) if actual_field[i] == expected_field[i])] *)
Definition count_matches (actual_field expected_field : list byte)
    (field_length : Z) : result Z :=
  for_each (range 0 field_length) 0
    (fun i acc =>
       a <- index actual_field i ;;
       b <- index expected_field i ;;
       Ok (if Byte.eqb a b then acc + 1 else acc)).

(** [(num / den * 100) if den > 0 else 0] *)
Definition percent_or_zero (num den : Z) : result Q :=
  if den >? 0 then
    q <- truediv num den ;;
    Ok (q * inject_Z 100)%Q
  else Ok 0%Q.

Definition field_step (actual_data expected_data : list byte)
    (kf : Z * Z * string) (st : totals) : result totals :=
  let '(start, end_, description) := kf in
  if (start <? len actual_data) && (start <? len expected_data) then
    let actual_field := slice actual_data start end_ in
    let expected_field := slice expected_data start end_ in
    let field_length := Z.min (len actual_field) (len expected_field) in
    n <- count_matches actual_field expected_field field_length ;;
    accuracy <- percent_or_zero n field_length ;;
    Ok (Totals (total_analyzed st + field_length) (total_matching st + n)
          (printed st ++ [FieldRow description start end_ field_length n accuracy]))
  else Ok st.

Definition window_analysis (windows : list (Z * Z * string))
    (actual_data expected_data : list byte) : result totals :=
  for_each windows (Totals 0 0 []) (field_step actual_data expected_data).

Definition expected_records : Z := 5.
Definition expected_record_size : Z := 2000.

(** The record structure verification: [(actual_records, actual_record_size)]. *)
Definition record_structure (actual_data : list byte) : result (Z * Z) :=
  actual_records <- floordiv (len actual_data) expected_record_size ;;
  actual_record_size <- (if actual_records >? 0
                         then floordiv (len actual_data) actual_records
                         else Ok 0) ;;
  Ok (actual_records, actual_record_size).

(** What [analyze_binary_accuracy] reports on two buffers already read. *)
Record report : Type := Report {
  rp_size_match : bool;
  rp_rows : list field_row;
  rp_total_analyzed : Z;
  rp_total_matching : Z;
  rp_overall_accuracy : Q;
  rp_actual_records : Z;
  rp_actual_record_size : Z;
  rp_records_ok : bool;
  rp_record_size_ok : bool
}.

Definition analyze_binary_accuracy (actual_data expected_data : list byte)
  : result report :=
  t <- window_analysis key_fields actual_data expected_data ;;
  overall_accuracy <- percent_or_zero (total_matching t) (total_analyzed t) ;;
  rs <- record_structure actual_data ;;
  Ok (Report (len actual_data =? len expected_data) (printed t)
        (total_analyzed t) (total_matching t) overall_accuracy
        (fst rs) (snd rs)
        (fst rs =? expected_records) (snd rs =? expected_record_size)).

(** Vocabulary for the statements about the windows: the byte at an
    absolute offset, whether a window starts inside both buffers, how many
    bytes of it both buffers have, how many of those are equal. *)
Definition byte_at (data : list byte) (i : Z) : byte := item x00 data i.

Definition same_byte (actual_data expected_data : list byte) (i : Z) : bool :=
  Byte.eqb (byte_at actual_data i) (byte_at expected_data i).

Definition window_in_bounds (actual_data expected_data : list byte)
    (w : Z * Z * string) : bool :=
  (fst (fst w) <? len actual_data) && (fst (fst w) <? len expected_data).

Definition window_length (actual_data expected_data : list byte)
    (w : Z * Z * string) : Z :=
  Z.max 0 (Z.min (snd (fst w)) (Z.min (len actual_data) (len expected_data))
           - fst (fst w)).

Definition window_matches (actual_data expected_data : list byte)
    (w : Z * Z * string) : Z :=
  len (filter (same_byte actual_data expected_data)
         (range (fst (fst w))
            (fst (fst w) + window_length actual_data expected_data w))).

Definition percent (num den : Z) : Q :=
  if den =? 0 then 0%Q else (inject_Z num / inject_Z den * inject_Z 100)%Q.

Definition window_report (actual_data expected_data : list byte)
    (w : Z * Z * string) : list field_row :=
  if window_in_bounds actual_data expected_data w then
    [FieldRow (snd w) (fst (fst w)) (snd (fst w))
       (window_length actual_data expected_data w)
       (window_matches actual_data expected_data w)
       (percent (window_matches actual_data expected_data w)
          (window_length actual_data expected_data w))]
  else [].

Definition window_of_row (row : field_row) : Z * Z * string :=
  (fr_start row, fr_end row, fr_description row).

Definition sum (l : list Z) : Z := fold_right Z.add 0 l.

(** The four outcomes of the enhancement assessment. *)
Inductive assessment : Type :=
| TargetAchieved
| SignificantProgress
| GoodProgress
| NeedsRefinement.

(** The chain [if overall_accuracy >= 95 ... elif >= 80 ... elif >= 60 ...]. *)
Definition assess (overall_accuracy : Q) : assessment :=
  if Qle_bool (inject_Z 95) overall_accuracy then TargetAchieved
  else if Qle_bool (inject_Z 80) overall_accuracy then SignificantProgress
  else if Qle_bool (inject_Z 60) overall_accuracy then GoodProgress
  else NeedsRefinement.

(** The width a window asks for. *)
Definition window_width (w : Z * Z * string) : Z :=
  Z.max 0 (snd (fst w) - fst (fst w)).

End FieldAccuracyAnalysis.

(** ** field_analysis.py *)

Module FieldAnalysis.

Definition pipe : ascii := "|"%char.

(** The dictionaries appended to [differences]. *)
Record difference : Type := Difference {
  df_field : Z;
  df_generated : string;
  df_expected : string
}.

(** Body of [for field_idx in range(max_fields)]: a side that has no field
    at the index stands as the text [MISSING]. *)
Definition difference_body (generated_fields expected_fields : list string)
    (field_idx : Z) (differences : list difference) : result (list difference) :=
  gen_field <- (if field_idx <? len generated_fields
                then index generated_fields field_idx
                else Ok "MISSING"%string) ;;
  exp_field <- (if field_idx <? len expected_fields
                then index expected_fields field_idx
                else Ok "MISSING"%string) ;;
  if negb (String.eqb gen_field exp_field) then
    Ok (differences ++ [Difference (field_idx + 1) gen_field exp_field])
  else Ok differences.

Definition record_differences (generated_fields expected_fields : list string)
  : result (list difference) :=
  let max_fields := Z.max (len generated_fields) (len expected_fields) in
  for_each (range 0 max_fields) [] (difference_body generated_fields expected_fields).

(** One turn of the loop over the records of [analyze_records], on the two
    stripped lines: the differences found. *)
Definition analyze_record (generated_record expected_record : string)
  : result (list difference) :=
  record_differences (split pipe generated_record) (split pipe expected_record).

(** The field a side shows at an index, for the statements. *)
Definition padded (fields : list string) (i : Z) : string :=
  if i <? len fields then field_at fields i else "MISSING"%string.

Definition padded_differ (generated_fields expected_fields : list string)
    (i : Z) : bool :=
  negb (String.eqb (padded generated_fields i) (padded expected_fields i)).

Definition difference_at (generated_fields expected_fields : list string)
    (i : Z) : difference :=
  Difference (i + 1) (padded generated_fields i) (padded expected_fields i).

End FieldAnalysis.

(** ** specific_field_analysis.py *)

Module SpecificFieldAnalysis.

(** The two messages of the search for the value [N]. *)
Inductive n_message : Type :=
| ExpectedN (field : Z)
| GeneratedN (field : Z).

(** [i < len(fields) and fields[i] == "N"]: the index is read only when
    the bound holds. *)
Definition holds_n (fields : list string) (i : Z) : result bool :=
  if i <? len fields then
    v <- index fields i ;;
    Ok (String.eqb v "N")
  else Ok false.

Definition n_search_body (generated_fields expected_fields : list string)
    (i : Z) (printed : list n_message) : result (list n_message) :=
  e <- holds_n expected_fields i ;;
  let printed1 := if e then printed ++ [ExpectedN (i + 1)] else printed in
  g <- holds_n generated_fields i ;;
  Ok (if g then printed1 ++ [GeneratedN (i + 1)] else printed1).

(** The loop [for i in range(120, 140)] of [analyze_specific_fields]. *)
Definition n_search (generated_fields expected_fields : list string)
  : result (list n_message) :=
  for_each (range 120 140) [] (n_search_body generated_fields expected_fields).

(** The side has the value [N] at index [i]. *)
Definition is_n (fields : list string) (i : Z) : bool :=
  (i <? len fields) && String.eqb (field_at fields i) "N".

(** The messages printed for index [i]. *)
Definition n_messages_at (generated_fields expected_fields : list string)
    (i : Z) : list n_message :=
  (if is_n expected_fields i then [ExpectedN (i + 1)] else [])
  ++ (if is_n generated_fields i then [GeneratedN (i + 1)] else []).

End SpecificFieldAnalysis.

(** ** position_analysis.py *)

Module PositionAnalysis.

(** A dictionary with integer keys, as the list of its items in insertion
    order. *)
Definition dict : Type := list (Z * string).

(** [d[k] = v]: the value of an existing key is replaced, a new key is
    added at the end. *)
Fixpoint dict_set (d : dict) (k : Z) (v : string) : dict :=
  match d with
  | [] => [(k, v)]
  | (k', v') :: rest =>
      if k' =? k then (k', v) :: rest else (k', v') :: dict_set rest k v
  end.

(** [d.get(k, default)] *)
Fixpoint dict_get (d : dict) (k : Z) (default : string) : string :=
  match d with
  | [] => default
  | (k', v') :: rest => if k' =? k then v' else dict_get rest k default
  end.

(** [enumerate(l, start)] *)
Definition enumerate {A} (l : list A) (start : Z) : list (Z * A) :=
  combine (range start (start + len l)) l.

(** The loop of [create_position_mapping] that fills [position_map]. *)
Definition position_map (fields : list string) : dict :=
  fold_left (fun d p => dict_set d (fst p) (snd p)) (enumerate fields 1) [].

(** [position_map.get(pos, "NOT_FOUND")] *)
Definition lookup_position (fields : list string) (pos : Z) : string :=
  dict_get (position_map fields) pos "NOT_FOUND".

End PositionAnalysis.

(** * Properties *)

(** ** Facts about the primitives *)

Section PyFacts.

Context {A : Type}.

Lemma len_nonneg (l : list A) : 0 <= len l.
Proof. unfold len. lia. Qed.

Lemma len_map {B} (f : A -> B) (l : list A) : len (map f l) = len l.
Proof. unfold len. now rewrite length_map. Qed.

(** Inside its bounds, indexing succeeds and reads the element that
    [nth] reads. *)
Lemma index_in_bounds (d : A) (l : list A) (i : Z) :
  0 <= i < len l -> index l i = Ok (item d l i).
Proof.
  intros Hi. unfold index, item.
  replace (i <? 0) with false by (symmetry; apply Z.ltb_ge; lia).
  replace (0 <=? i) with true by (symmetry; apply Z.leb_le; lia).
  replace (i <? len l) with true by (symmetry; apply Z.ltb_lt; lia).
  cbn [andb].
  destruct (nth_error l (Z.to_nat i)) as [x|] eqn:E.
  - now rewrite (nth_error_nth _ _ d E).
  - apply nth_error_None in E. unfold len in Hi. lia.
Qed.

Lemma in_range (a b i : Z) : In i (range a b) <-> a <= i < b.
Proof.
  unfold range. rewrite in_map_iff. split.
  - intros (k & <- & Hk). apply in_seq in Hk. lia.
  - intros H. exists (Z.to_nat (i - a)). split; [lia|]. apply in_seq. lia.
Qed.

Lemma len_range (a b : Z) : len (range a b) = Z.max 0 (b - a).
Proof. unfold len, range. rewrite length_map, length_seq. lia. Qed.

Lemma range_empty (a b : Z) : b <= a -> range a b = [].
Proof.
  intros H. unfold range. replace (Z.to_nat (b - a)) with O by lia. reflexivity.
Qed.

End PyFacts.

(** ** Facts about [split] and [join] *)

Section SplitFacts.

Variable sep : ascii.

Lemma split_not_nil (s : string) : split sep s <> [].
Proof.
  destruct s as [|c s]; cbn; [discriminate|].
  destruct (Ascii.eqb c sep); [discriminate|].
  destruct (split sep s); discriminate.
Qed.

Lemma join_cons (f : string) (fs : list string) :
  fs <> [] -> join sep (f :: fs) = (f ++ String sep (join sep fs))%string.
Proof. destruct fs; [congruence | reflexivity]. Qed.

Lemma join_split (s : string) : join sep (split sep s) = s.
Proof.
  induction s as [|c s IH]; cbn [split]; [reflexivity|].
  destruct (Ascii.eqb c sep) eqn:E.
  - apply Ascii.eqb_eq in E. subst c.
    rewrite join_cons by apply split_not_nil. cbn. now rewrite IH.
  - pose proof (split_not_nil s) as Hne.
    destruct (split sep s) as [|f fs]; [congruence|].
    destruct fs as [|f' fs'].
    + cbn in *. now rewrite IH.
    + rewrite join_cons by discriminate.
      rewrite join_cons in IH by discriminate.
      cbn [append]. now rewrite IH.
Qed.

Lemma length_split (s : string) :
  List.length (split sep s) = S (count_char sep s).
Proof.
  induction s as [|c s IH]; cbn [split count_char]; [reflexivity|].
  destruct (Ascii.eqb c sep); cbn [List.length].
  - now rewrite IH.
  - pose proof (split_not_nil s) as Hne.
    destruct (split sep s) as [|f fs]; [congruence|].
    cbn [List.length] in *. lia.
Qed.

Lemma split_fields_sep_free (s : string) :
  Forall (fun f => contains sep f = false) (split sep s).
Proof.
  induction s as [|c s IH]; cbn [split].
  - now constructor.
  - destruct (Ascii.eqb c sep) eqn:E.
    + constructor; [reflexivity | exact IH].
    + destruct (split sep s) as [|f fs]; [repeat constructor; cbn; now rewrite E|].
      inversion IH as [|? ? Hf Hfs]; subst.
      constructor; [cbn; now rewrite E, Hf | exact Hfs].
Qed.

Lemma split_sep_free_append (f s : string) :
  contains sep f = false ->
  split sep (f ++ String sep s) = f :: split sep s.
Proof.
  induction f as [|c f IH]; cbn; intros Hf.
  - now rewrite Ascii.eqb_refl.
  - apply orb_false_iff in Hf as [Hc Hf]. rewrite Hc, (IH Hf). reflexivity.
Qed.

Lemma split_sep_free (f : string) :
  contains sep f = false -> split sep f = [f].
Proof.
  induction f as [|c f IH]; cbn; intros Hf; [reflexivity|].
  apply orb_false_iff in Hf as [Hc Hf]. now rewrite Hc, (IH Hf).
Qed.

(** Any way of writing a string as separator-free fields joined by the
    separator is the one [split] finds. *)
Lemma split_join (fields : list string) :
  fields <> [] ->
  Forall (fun f => contains sep f = false) fields ->
  split sep (join sep fields) = fields.
Proof.
  induction fields as [|f fs IH]; intros Hne Hall; [congruence|].
  inversion Hall as [|? ? Hf Hfs]; subst.
  destruct fs as [|f' fs'].
  - cbn. now apply split_sep_free.
  - rewrite join_cons by discriminate.
    rewrite split_sep_free_append by assumption.
    f_equal. apply IH; [discriminate | assumption].
Qed.

End SplitFacts.

(** ** detailed_comparison.py: the field comparison *)

Section CompareFields.

Import DetailedComparison.

Variables our_fields expected_fields : list string.

Lemma common_loop (indices : list Z) :
  (forall i, In i indices -> 0 <= i < len our_fields /\ 0 <= i < len expected_fields) ->
  forall c,
    for_each indices c (common_body our_fields expected_fields)
    = Ok (common_result our_fields expected_fields c indices).
Proof.
  induction indices as [|i rest IH]; intros Hin c.
  - cbn. unfold common_result. cbn. rewrite Z.add_0_r, app_nil_r.
    now destruct c.
  - destruct (Hin i (or_introl eq_refl)) as [Ho He].
    cbn [for_each]. unfold common_body at 1.
    rewrite (index_in_bounds EmptyString _ _ Ho), (index_in_bounds EmptyString _ _ He).
    cbn [Py.bind].
    fold (field_at our_fields i) (field_at expected_fields i).
    unfold common_result. cbn [filter]. unfold differ at 1.
    fold (agree our_fields expected_fields i).
    destruct (agree our_fields expected_fields i) eqn:E; cbn [Py.bind negb].
    + rewrite IH by (intros; apply Hin; now right).
      unfold common_result, incr_matches; cbn. f_equal. f_equal.
      unfold len. cbn [List.length]. lia.
    + rewrite IH by (intros; apply Hin; now right).
      unfold common_result, append_mismatch; cbn. f_equal. f_equal.
      now rewrite <- app_assoc.
Qed.

Lemma missing_loop (indices : list Z) :
  (forall i, In i indices -> 0 <= i < len expected_fields) ->
  forall c,
    for_each indices c (missing_body expected_fields)
    = Ok (Comparison (record_type c) (our_field_count c) (expected_field_count c)
            (matches c) (mismatches c)
            (missing_fields c ++ map (missing_at expected_fields) indices)
            (extra_fields c)).
Proof.
  induction indices as [|i rest IH]; intros Hin c.
  - cbn. rewrite app_nil_r. now destruct c.
  - cbn [for_each]. unfold missing_body at 1.
    rewrite (index_in_bounds EmptyString) by (apply Hin; now left).
    cbn [Py.bind]. rewrite IH by (intros; apply Hin; now right).
    unfold append_missing; cbn. now rewrite <- app_assoc.
Qed.

Lemma extra_loop (indices : list Z) :
  (forall i, In i indices -> 0 <= i < len our_fields) ->
  forall c,
    for_each indices c (extra_body our_fields)
    = Ok (Comparison (record_type c) (our_field_count c) (expected_field_count c)
            (matches c) (mismatches c) (missing_fields c)
            (extra_fields c ++ map (extra_at our_fields) indices)).
Proof.
  induction indices as [|i rest IH]; intros Hin c.
  - cbn. rewrite app_nil_r. now destruct c.
  - cbn [for_each]. unfold extra_body at 1.
    rewrite (index_in_bounds EmptyString) by (apply Hin; now left).
    cbn [Py.bind]. rewrite IH by (intros; apply Hin; now right).
    unfold append_extra; cbn. now rewrite <- app_assoc.
Qed.

(** The whole result of [compare_fields], in closed form. *)
Lemma compare_fields_closed_form (rtype : string) :
  compare_fields our_fields expected_fields rtype
  = Ok (Comparison rtype (len our_fields) (len expected_fields)
          (len (filter (agree our_fields expected_fields)
                  (range 0 (Z.min (len our_fields) (len expected_fields)))))
          (map (mismatch_at our_fields expected_fields)
             (filter (differ our_fields expected_fields)
                (range 0 (Z.min (len our_fields) (len expected_fields)))))
          (map (missing_at expected_fields)
             (range (len our_fields) (len expected_fields)))
          (map (extra_at our_fields)
             (range (len expected_fields) (len our_fields)))).
Proof.
  unfold compare_fields.
  rewrite common_loop by (intros i Hi; apply in_range in Hi; lia).
  unfold common_result.
  cbn [Py.bind record_type our_field_count expected_field_count matches
         mismatches missing_fields extra_fields app].
  rewrite Z.add_0_l.
  destruct (len expected_fields >? len our_fields) eqn:E1.
  - rewrite missing_loop
      by (intros i Hi; apply in_range in Hi;
          pose proof (len_nonneg our_fields); lia).
    cbn [Py.bind]. apply Z.gtb_lt in E1.
    replace (len our_fields >? len expected_fields) with false
      by (symmetry; rewrite Z.gtb_ltb; apply Z.ltb_ge; lia).
    cbn. rewrite (range_empty (len expected_fields)) by lia. reflexivity.
  - cbn [Py.bind].
    assert (len expected_fields <= len our_fields) as Hle.
    { rewrite Z.gtb_ltb in E1. apply Z.ltb_ge in E1. lia. }
    rewrite (range_empty (len our_fields)) by lia.
    destruct (len our_fields >? len expected_fields) eqn:E2.
    + rewrite extra_loop
        by (intros i Hi; apply in_range in Hi;
            pose proof (len_nonneg expected_fields); lia).
      reflexivity.
    + rewrite Z.gtb_ltb in E2. apply Z.ltb_ge in E2.
      rewrite (range_empty (len expected_fields)) by lia. reflexivity.
Qed.

End CompareFields.

Section CompareFieldsClaims.

Import DetailedComparison.

Lemma len_filter_partition {A} (p : A -> bool) (l : list A) :
  len (filter p l) + len (filter (fun x => negb (p x)) l) = len l.
Proof.
  unfold len. induction l as [|x l IH]; cbn [filter]; [reflexivity|].
  destruct (p x); cbn [negb List.length]; lia.
Qed.

Lemma NoDup_map_injective {A B} (f : A -> B) (l : list A) :
  (forall x y, f x = f y -> x = y) -> NoDup l -> NoDup (map f l).
Proof.
  intros Hinj Hl. induction Hl as [|x l Hx Hl IH]; cbn; constructor; auto.
  intros Hm. apply in_map_iff in Hm as (y & Hy & Hin).
  apply Hinj in Hy. now subst y.
Qed.

Lemma NoDup_range (a b : Z) : NoDup (range a b).
Proof.
  unfold range. apply NoDup_map_injective; [|apply seq_NoDup].
  intros x y H. lia.
Qed.

Lemma agree_sym (xs ys : list string) (i : Z) : agree xs ys i = agree ys xs i.
Proof. unfold agree. apply String.eqb_sym. Qed.

(** C1.  [compare_fields] never raises, and in its result
    [matches + len(mismatches) = min(len(our_fields), len(expected_fields))];
    every compared position [i] (0-based) is either counted in [matches] and
    absent from [mismatches], or recorded as exactly one mismatch, at the
    1-based position [i+1], with the actual value [our_fields[i]] and the
    expected value [expected_fields[i]]; the mismatches come in increasing
    order of position. *)
Theorem compare_fields_common_positions
    (our_fields expected_fields : list string) (rtype : string) :
  exists c,
    compare_fields our_fields expected_fields rtype = Ok c
    /\ matches c + len (mismatches c)
       = Z.min (len our_fields) (len expected_fields)
    /\ matches c
       = len (filter (agree our_fields expected_fields)
                (range 0 (Z.min (len our_fields) (len expected_fields))))
    /\ mismatches c
       = map (mismatch_at our_fields expected_fields)
           (filter (differ our_fields expected_fields)
              (range 0 (Z.min (len our_fields) (len expected_fields))))
    /\ NoDup (map mm_field_index (mismatches c))
    /\ forall i a b,
         0 <= i < Z.min (len our_fields) (len expected_fields) ->
         index our_fields i = Ok a ->
         index expected_fields i = Ok b ->
         if String.eqb a b
         then forall m, In m (mismatches c) -> mm_field_index m <> i + 1
         else In (Mismatch (i + 1) a b) (mismatches c)
              /\ forall m, In m (mismatches c) -> mm_field_index m = i + 1 ->
                           m = Mismatch (i + 1) a b.
Proof.
  eexists. split; [apply compare_fields_closed_form|].
  cbn [matches mismatches].
  set (n := Z.min (len our_fields) (len expected_fields)).
  assert (forall m,
             In m (map (mismatch_at our_fields expected_fields)
                     (filter (differ our_fields expected_fields) (range 0 n))) ->
             exists j, m = mismatch_at our_fields expected_fields j
                       /\ differ our_fields expected_fields j = true) as Hin.
  { intros m Hm. apply in_map_iff in Hm as (j & <- & Hj).
    apply filter_In in Hj as [_ Hj]. now exists j. }
  repeat split.
  - rewrite len_map. unfold differ.
    rewrite len_filter_partition, len_range. subst n.
    pose proof (len_nonneg our_fields). pose proof (len_nonneg expected_fields). lia.
  - rewrite map_map. apply NoDup_map_injective.
    + intros x y H. cbn in H. lia.
    + apply NoDup_filter, NoDup_range.
  - intros i a b Hi Ha Hb.
    rewrite (index_in_bounds EmptyString) in Ha by lia.
    rewrite (index_in_bounds EmptyString) in Hb by lia.
    injection Ha as <-. injection Hb as <-.
    fold (field_at our_fields i) (field_at expected_fields i).
    destruct (String.eqb (field_at our_fields i) (field_at expected_fields i)) eqn:E.
    + intros m Hm Hidx. apply Hin in Hm as (j & -> & Hj).
      cbn in Hidx. assert (j = i) by lia. subst j.
      unfold differ, agree in Hj. rewrite E in Hj. discriminate.
    + split.
      * apply in_map_iff. exists i. split; [reflexivity|].
        apply filter_In. split; [apply in_range; lia|].
        unfold differ, agree. now rewrite E.
      * intros m Hm Hidx. apply Hin in Hm as (j & -> & Hj).
        cbn in Hidx. assert (j = i) by lia. now subst j.
Qed.

(** C2.  [compare_fields] returns exactly [max(0, len(expected) - len(our))]
    missing entries, one for each index from [len(our)] up to
    [len(expected)], carrying the 1-based position and the expected value,
    and exactly [max(0, len(our) - len(expected))] extra entries, one for
    each index from [len(expected)] up to [len(our)], carrying the 1-based
    position and the actual value. *)
Theorem compare_fields_missing_extra
    (our_fields expected_fields : list string) (rtype : string) :
  exists c,
    compare_fields our_fields expected_fields rtype = Ok c
    /\ len (missing_fields c) = Z.max 0 (len expected_fields - len our_fields)
    /\ len (extra_fields c) = Z.max 0 (len our_fields - len expected_fields)
    /\ missing_fields c
       = map (missing_at expected_fields)
           (range (len our_fields) (len expected_fields))
    /\ extra_fields c
       = map (extra_at our_fields)
           (range (len expected_fields) (len our_fields))
    /\ (forall i, len our_fields <= i < len expected_fields ->
          exists b, index expected_fields i = Ok b
                    /\ In (Missing (i + 1) b) (missing_fields c))
    /\ (forall i, len expected_fields <= i < len our_fields ->
          exists a, index our_fields i = Ok a
                    /\ In (Extra (i + 1) a) (extra_fields c)).
Proof.
  eexists. split; [apply compare_fields_closed_form|].
  cbn [missing_fields extra_fields].
  pose proof (len_nonneg our_fields). pose proof (len_nonneg expected_fields).
  repeat split.
  - now rewrite len_map, len_range.
  - now rewrite len_map, len_range.
  - intros i Hi. exists (field_at expected_fields i). split.
    + apply index_in_bounds. lia.
    + apply in_map_iff. exists i. split; [reflexivity | apply in_range; lia].
  - intros i Hi. exists (field_at our_fields i). split.
    + apply index_in_bounds. lia.
    + apply in_map_iff. exists i. split; [reflexivity | apply in_range; lia].
Qed.

(** C8.  Comparing in the other direction finds mismatches at the same
    1-based positions, and each mismatch of one direction is the mismatch of
    the other with its actual and expected values swapped. *)
Theorem compare_fields_mismatches_swap
    (a_fields b_fields : list string) (rtype rtype' : string) :
  exists c c',
    compare_fields a_fields b_fields rtype = Ok c
    /\ compare_fields b_fields a_fields rtype' = Ok c'
    /\ map mm_field_index (mismatches c') = map mm_field_index (mismatches c)
    /\ mismatches c' = map swap (mismatches c)
    /\ (forall p x y, In (Mismatch p x y) (mismatches c)
                      <-> In (Mismatch p y x) (mismatches c')).
Proof.
  do 2 eexists.
  split; [apply compare_fields_closed_form|].
  split; [apply compare_fields_closed_form|].
  cbn [mismatches].
  rewrite (Z.min_comm (len b_fields)).
  set (n := Z.min (len a_fields) (len b_fields)).
  assert (filter (differ b_fields a_fields) (range 0 n)
          = filter (differ a_fields b_fields) (range 0 n)) as Hf.
  { apply filter_ext. intros i. unfold differ. now rewrite agree_sym. }
  assert (map (mismatch_at b_fields a_fields)
            (filter (differ b_fields a_fields) (range 0 n))
          = map swap
              (map (mismatch_at a_fields b_fields)
                 (filter (differ a_fields b_fields) (range 0 n)))) as Hs.
  { rewrite Hf, map_map. reflexivity. }
  repeat split.
  - rewrite Hs, !map_map. reflexivity.
  - exact Hs.
  - intros Hm. rewrite Hs. apply in_map_iff.
    exists (Mismatch p x y). now split.
  - intros Hm. rewrite Hs in Hm. apply in_map_iff in Hm as ([q u v] & Heq & Hm).
    cbv [swap mm_field_index mm_our_value mm_expected_value] in Heq.
    now injection Heq as -> -> ->.
Qed.

End CompareFieldsClaims.

(** Two runs of [compare_fields] on small records. *)
Example compare_fields_one_mismatch :
  DetailedComparison.compare_fields
    ["1"; "2"; "3"]%string ["1"; "X"; "3"]%string "P"%string
  = Ok (DetailedComparison.Comparison "P"%string 3 3 2
          [DetailedComparison.Mismatch 2 "2"%string "X"%string] [] []).
Proof. reflexivity. Qed.

Example compare_fields_one_missing :
  DetailedComparison.compare_fields
    ["1"; "2"]%string ["1"; "2"; "3"]%string "P"%string
  = Ok (DetailedComparison.Comparison "P"%string 2 3 2
          [] [DetailedComparison.Missing 3 "3"%string] []).
Proof. reflexivity. Qed.

(** ** detailed_comparison.py: segmenting a record *)

Section ParseRecord.

Import DetailedComparison.

Lemma parse_record_closed_form (record : string) :
  parse_record record
  = Ok (if len (split pipe record) >=? 3
        then field_at (split pipe record) 2
        else "UNKNOWN"%string,
        split pipe record).
Proof.
  unfold parse_record.
  destruct (len (split pipe record) >=? 3) eqn:E; [|reflexivity].
  rewrite Z.geb_leb in E. apply Z.leb_le in E.
  rewrite (index_in_bounds EmptyString) by lia. reflexivity.
Qed.

(** C3.  Segmenting never fails, for any string and any one-character
    delimiter: every occurrence of the delimiter ends a field (there is one
    more field than there are delimiters, no field holds a delimiter, and
    any decomposition of the string into delimiter-free fields is the one
    returned), empty fields between consecutive delimiters are kept, and
    ["a||b"] segmented on [|] is the three fields [a], the empty field and [b]. *)
Theorem segment_total_keeps_empty_fields (sep : ascii) (s : string) :
  List.length (split sep s) = S (count_char sep s)
  /\ Forall (fun f => contains sep f = false) (split sep s)
  /\ (forall fields,
        fields <> [] ->
        Forall (fun f => contains sep f = false) fields ->
        join sep fields = s -> split sep s = fields)
  /\ (exists record_type, parse_record s = Ok (record_type, split pipe s))
  /\ split pipe "a||b" = ["a"; EmptyString; "b"]%string
  /\ parse_record "a||b" = Ok ("b", ["a"; EmptyString; "b"])%string.
Proof.
  split; [apply length_split|].
  split; [apply split_fields_sep_free|].
  split; [intros fields Hne Hall <-; now apply split_join|].
  split; [eexists; apply parse_record_closed_form|].
  split; reflexivity.
Qed.

(** C10.  Segmenting loses nothing: joining the fields of a record with
    [|] gives the record back, character for character, so no field is
    escaped, trimmed, normalised or dropped; hence there is always at least
    one field, also for the empty record (whose only field is empty). *)
Theorem segment_join_roundtrip (record : string) :
  exists record_type fields,
    parse_record record = Ok (record_type, fields)
    /\ fields = split pipe record
    /\ join pipe fields = record
    /\ 1 <= len fields
    /\ split pipe EmptyString = [EmptyString].
Proof.
  eexists. eexists. split; [apply parse_record_closed_form|].
  split; [reflexivity|].
  split; [apply join_split|].
  split; [|reflexivity].
  unfold len. rewrite length_split. lia.
Qed.

(** C9, as the claim words it: the record type would be ['UNKNOWN'] exactly
    when there are fewer than three fields.  A record whose third field is
    the text [UNKNOWN] has three fields and that record type. *)
Lemma parse_record_unknown_with_three_fields :
  parse_record "a|b|UNKNOWN" = Ok ("UNKNOWN", ["a"; "b"; "UNKNOWN"])%string
  /\ ~ (forall record record_type fields,
          parse_record record = Ok (record_type, fields) ->
          (record_type = "UNKNOWN"%string <-> len fields < 3)).
Proof.
  split; [reflexivity|].
  intros H.
  specialize (H "a|b|UNKNOWN"%string "UNKNOWN"%string
                ["a"; "b"; "UNKNOWN"]%string eq_refl).
  destruct H as [H _]. specialize (H eq_refl). cbv in H. discriminate.
Qed.

(** C9.  Parsing never raises and returns every field of the record; the
    record type is ['UNKNOWN'] when the record has fewer than three fields
    and the third field otherwise (so it is ['UNKNOWN'] exactly when there
    are fewer than three fields or the third field is that text).  The
    comparison of the fields of any two records then never raises either:
    the positions only one record has become missing or extra entries. *)
Theorem parse_record_never_raises (record other : string) :
  exists record_type fields other_type other_fields c,
    parse_record record = Ok (record_type, fields)
    /\ parse_record other = Ok (other_type, other_fields)
    /\ fields = split pipe record
    /\ (len fields < 3 -> record_type = "UNKNOWN"%string)
    /\ (3 <= len fields -> index fields 2 = Ok record_type)
    /\ (record_type = "UNKNOWN"%string
        <-> len fields < 3 \/ index fields 2 = Ok "UNKNOWN"%string)
    /\ compare_fields fields other_fields "P"%string = Ok c
    /\ our_field_count c = len fields
    /\ expected_field_count c = len other_fields
    /\ matches c + len (mismatches c) + len (missing_fields c)
       + len (extra_fields c)
       = Z.max (len fields) (len other_fields)
    /\ len (missing_fields c) = Z.max 0 (len other_fields - len fields)
    /\ len (extra_fields c) = Z.max 0 (len fields - len other_fields).
Proof.
  do 5 eexists.
  split; [apply parse_record_closed_form|].
  split; [apply parse_record_closed_form|].
  split; [reflexivity|].
  set (fields := split pipe record). set (other_fields := split pipe other).
  pose proof (len_nonneg fields). pose proof (len_nonneg other_fields).
  destruct (len fields >=? 3) eqn:E; rewrite Z.geb_leb in E;
    [apply Z.leb_le in E | apply Z.leb_gt in E].
  - split; [lia|].
    split; [intros _; apply index_in_bounds; lia|].
    split.
    { split.
      - intros Heq. right. rewrite (index_in_bounds EmptyString) by lia.
        fold (field_at fields 2). now rewrite Heq.
      - intros [Hlt | Hidx]; [lia|].
        rewrite (index_in_bounds EmptyString) in Hidx by lia.
        now injection Hidx. }
    split; [apply compare_fields_closed_form|].
    cbn [our_field_count expected_field_count matches mismatches
           missing_fields extra_fields].
    pose proof (len_filter_partition (agree fields other_fields)
                  (range 0 (Z.min (len fields) (len other_fields)))) as Hp.
    rewrite len_range in Hp. unfold differ. subst fields other_fields.
    repeat split; rewrite ?len_map, ?len_range; lia.
  - split; [reflexivity|].
    split; [lia|].
    split; [split; [intros _; now left | reflexivity]|].
    split; [apply compare_fields_closed_form|].
    cbn [our_field_count expected_field_count matches mismatches
           missing_fields extra_fields].
    pose proof (len_filter_partition (agree fields other_fields)
                  (range 0 (Z.min (len fields) (len other_fields)))) as Hp.
    rewrite len_range in Hp. unfold differ. subst fields other_fields.
    repeat split; rewrite ?len_map, ?len_range; lia.
Qed.

End ParseRecord.

(** ** shift_analysis.py: the probe for a shifted field *)

Section ShiftProbe.

Import ShiftAnalysis.

Variables generated_fields expected_fields : list string.

Lemma filter_andb {A} (p q : A -> bool) (l : list A) :
  filter (fun x => p x && q x) l = filter q (filter p l).
Proof.
  induction l as [|x l IH]; cbn [filter]; [reflexivity|].
  destruct (p x); cbn [andb filter]; [destruct (q x)|]; now rewrite IH.
Qed.

Lemma hd_error_filter {A} (p : A -> bool) (l : list A) :
  hd_error (filter p l) = find p l.
Proof.
  induction l as [|x l IH]; cbn [filter find]; [reflexivity|].
  now destruct (p x).
Qed.

Lemma probe_loop (first_diff : Z) (offsets : list Z) :
  0 <= first_diff - 1 < len generated_fields ->
  forall rows,
    for_each offsets rows (probe_body generated_fields expected_fields first_diff)
    = Ok (rows
            ++ map (fun o => ShiftRow first_diff (first_diff - 1 + o + 1) o)
                 (filter (fun o => negb (o =? 0)
                                   && probe_hit generated_fields expected_fields
                                        (first_diff - 1) o)
                    offsets)).
Proof.
  intros Hd. induction offsets as [|o rest IH]; intros rows.
  - cbn. now rewrite app_nil_r.
  - cbn [for_each filter]. unfold probe_body at 1. unfold probe_hit at 1.
    destruct (o =? 0); cbn [negb andb Py.bind]; [apply IH|].
    destruct ((0 <=? first_diff - 1 + o)
              && (first_diff - 1 + o <? len expected_fields)) eqn:E;
      cbn [andb Py.bind]; [|apply IH].
    apply andb_true_iff in E as [E1 E2].
    apply Z.leb_le in E1. apply Z.ltb_lt in E2.
    rewrite (index_in_bounds EmptyString _ _ Hd).
    rewrite (index_in_bounds EmptyString) by lia.
    cbn [Py.bind]. unfold field_at.
    destruct (String.eqb _ _); cbn [Py.bind andb filter]; [|apply IH].
    rewrite IH. cbn [map]. now rewrite <- app_assoc.
Qed.

Lemma shift_probe_closed_form (d : Z) :
  0 <= d < len generated_fields ->
  shift_probe generated_fields expected_fields (d + 1)
  = Ok (map (fun o => ShiftRow (d + 1) (d + o + 1) o)
          (filter (probe_hit generated_fields expected_fields d) probe_offsets)).
Proof.
  intros Hd. unfold shift_probe.
  rewrite probe_loop by lia. cbn [app].
  rewrite filter_andb.
  replace (d + 1 - 1) with d by lia.
  replace (filter (fun o => negb (o =? 0)) (range (-3) 4)) with probe_offsets
    by reflexivity.
  reflexivity.
Qed.

Lemma probe_hit_true (d o : Z) :
  0 <= d < len generated_fields ->
  probe_hit generated_fields expected_fields d o = true
  <-> 0 <= d + o < len expected_fields
      /\ exists v, index generated_fields d = Ok v
                   /\ index expected_fields (d + o) = Ok v.
Proof.
  intros Hd. unfold probe_hit.
  rewrite !andb_true_iff, Z.leb_le, Z.ltb_lt, String.eqb_eq.
  split.
  - intros [[H1 H2] H3]. split; [lia|].
    exists (field_at generated_fields d). split.
    + apply index_in_bounds. lia.
    + rewrite H3. apply index_in_bounds. lia.
  - intros [H (v & Hg & He)].
    rewrite (index_in_bounds EmptyString) in Hg by lia.
    rewrite (index_in_bounds EmptyString) in He by lia.
    split; [lia|]. unfold field_at. congruence.
Qed.

Lemma first_diff_loop_closed_form (indices : list Z) :
  (forall i, In i indices ->
             0 <= i < len generated_fields /\ 0 <= i < len expected_fields) ->
  first_diff_loop generated_fields expected_fields indices
  = Ok (option_map (fun i => i + 1)
          (find (differ generated_fields expected_fields) indices)).
Proof.
  induction indices as [|i rest IH]; intros Hin; [reflexivity|].
  cbn [first_diff_loop find].
  destruct (Hin i (or_introl eq_refl)) as [Hg He].
  rewrite (index_in_bounds EmptyString _ _ Hg), (index_in_bounds EmptyString _ _ He).
  cbn [Py.bind]. unfold differ at 1, agree, field_at.
  destruct (negb _); [reflexivity|].
  apply IH. intros; apply Hin; now right.
Qed.

End ShiftProbe.

Section ShiftClaims.

Import ShiftAnalysis.

(** The whole script never raises: it finds the first position where the
    two records differ, if any, and probes around it. *)
Lemma find_shift_point_total (generated_record expected_record : string) :
  let g := split pipe generated_record in
  let e := split pipe expected_record in
  find_shift_point generated_record expected_record
  = Ok (match find (differ g e) (range 0 (Z.min (len g) (len e))) with
        | Some d =>
            (Some (d + 1),
             map (fun o => ShiftRow (d + 1) (d + o + 1) o)
               (filter (probe_hit g e d) probe_offsets))
        | None => (None, [])
        end).
Proof.
  intros g e. unfold find_shift_point. fold g e.
  rewrite first_diff_loop_closed_form by (intros i Hi; apply in_range in Hi; lia).
  destruct (find _ _) as [d|] eqn:F; cbn [option_map Py.bind]; [|reflexivity].
  apply find_some in F as [Hd _]. apply in_range in Hd.
  replace (d + 1 =? 0) with false by (symmetry; apply Z.eqb_neq; lia).
  rewrite shift_probe_closed_form by lia. reflexivity.
Qed.

(** C5, as the claim words it: the probe would report one offset, the first
    that matches.  The loop has no [break]: on the records [x|x] and [x|y|x],
    which first differ at field 2, it reports both offset [-1] and offset
    [+1]. *)
Lemma shift_probe_reports_two_offsets :
  exists rows,
    find_shift_point "x|x" "x|y|x" = Ok (Some 2, rows)
    /\ map sr_offset rows = [-1; 1]
    /\ find (probe_hit ["x"; "x"]%string ["x"; "y"; "x"]%string 1) probe_offsets
       = Some (-1)
    /\ map sr_offset rows <> [-1].
Proof.
  eexists. split; [reflexivity|]. cbn. repeat split. discriminate.
Qed.

(** C5.  For a differing position [d] (0-based) of the generated fields,
    the probe visits the offsets -3, -2, -1, 1, 2, 3 in this order and never
    raises; it reports every offset [o] for which [d+o] is an index of the
    expected fields and [generated[d] = expected[d+o]] (not only the first
    one), so the first reported offset is the first matching offset of the
    scan, and nothing is reported when no offset matches. *)
Theorem shift_probe_reports_matching_offsets
    (generated_fields expected_fields : list string) (d : Z)
    (Hd : 0 <= d < len generated_fields) :
  exists rows,
    shift_probe generated_fields expected_fields (d + 1) = Ok rows
    /\ map sr_offset rows
       = filter (probe_hit generated_fields expected_fields d) probe_offsets
    /\ hd_error (map sr_offset rows)
       = find (probe_hit generated_fields expected_fields d) probe_offsets
    /\ (forall r, In r rows ->
          sr_generated_field r = d + 1
          /\ sr_expected_field r = d + sr_offset r + 1)
    /\ (forall o, In o (map sr_offset rows)
                  <-> -3 <= o <= 3 /\ o <> 0
                      /\ 0 <= d + o < len expected_fields
                      /\ exists v, index generated_fields d = Ok v
                                   /\ index expected_fields (d + o) = Ok v)
    /\ (rows = []
        <-> forall o, In o probe_offsets ->
                      probe_hit generated_fields expected_fields d o = false).
Proof.
  eexists. split; [now apply shift_probe_closed_form|].
  set (hits := filter (probe_hit generated_fields expected_fields d) probe_offsets).
  assert (map sr_offset (map (fun o => ShiftRow (d + 1) (d + o + 1) o) hits) = hits)
    as Hoff.
  { rewrite map_map. cbn. apply map_id. }
  split; [exact Hoff|].
  split; [rewrite Hoff; apply hd_error_filter|].
  split.
  { intros r Hr. apply in_map_iff in Hr as (o & <- & _). now cbn. }
  split.
  { intros o. rewrite Hoff. unfold hits. rewrite filter_In.
    rewrite (probe_hit_true _ _ _ _ Hd).
    assert (In o probe_offsets <-> -3 <= o <= 3 /\ o <> 0) as ->
      by (unfold probe_offsets; cbn [In]; lia).
    tauto. }
  split.
  - intros Hnil o Ho.
    destruct (probe_hit generated_fields expected_fields d o) eqn:E; [|reflexivity].
    assert (In o hits) as Hin by (apply filter_In; now split).
    apply (in_map (fun o => ShiftRow (d + 1) (d + o + 1) o)) in Hin.
    rewrite Hnil in Hin. destruct Hin.
  - intros Hnone.
    destruct hits as [|o rest] eqn:E; [reflexivity|].
    assert (In o hits) as Hin by (rewrite E; now left).
    apply filter_In in Hin as [Ho Hhit].
    rewrite (Hnone o Ho) in Hhit. discriminate.
Qed.

(** The scenario of the claim: generated fields 1, 3, 4 against expected
    fields 1, 2, 3, 4 differ first at index 1, and the probe reports offset
    [+1] only. *)
Lemma shift_probe_scenario :
  0 <= 1 < len ["1"; "3"; "4"]%string
  /\ exists rows,
       shift_probe ["1"; "3"; "4"]%string ["1"; "2"; "3"; "4"]%string (1 + 1)
       = Ok rows
       /\ map sr_offset rows = [1].
Proof.
  assert (0 <= 1 < len ["1"; "3"; "4"]%string) as H by (cbv; split; congruence).
  split; [exact H|].
  destruct (shift_probe_reports_matching_offsets
              ["1"; "3"; "4"]%string ["1"; "2"; "3"; "4"]%string 1 H)
    as (rows & Hrun & Hoff & _).
  exists rows. split; [exact Hrun | exact Hoff].
Defined.

Example find_shift_point_scenario :
  find_shift_point "1|3|4" "1|2|3|4" = Ok (Some 2, [ShiftRow 2 3 1]).
Proof. reflexivity. Qed.

End ShiftClaims.

(** ** Percentages *)

Section Percentages.

Lemma percent_bounds (m t : Z) :
  0 <= m <= t -> 0 < t ->
  (0 <= inject_Z m / inject_Z t * inject_Z 100 <= inject_Z 100)%Q.
Proof.
  intros Hm Ht. destruct t as [|p|p]; try lia.
  unfold Qle, Qdiv, Qmult, Qinv, inject_Z. cbn [Qnum Qden].
  rewrite !Pos.mul_1_l, !Pos.mul_1_r, !Z.mul_1_r.
  split; nia.
Qed.

Lemma len_filter_le {A} (p : A -> bool) (l : list A) :
  0 <= len (filter p l) <= len l.
Proof.
  split; [apply len_nonneg|].
  unfold len. apply inj_le. apply filter_length_le.
Qed.

End Percentages.

(** ** detailed_comparison.py: the field range analysis *)

Section RangeAnalysis.

Import DetailedComparison.

Variables our_fields expected_fields : list string.

Lemma range_count_loop (indices : list Z) :
  (forall i, In i indices ->
             0 <= i < len our_fields /\ 0 <= i < len expected_fields) ->
  forall st,
    for_each indices st (range_body our_fields expected_fields)
    = Ok (fst st + len (filter (agree our_fields expected_fields) indices),
          snd st + len (filter (differ our_fields expected_fields) indices)).
Proof.
  induction indices as [|i rest IH]; intros Hin [m n].
  - cbn. now rewrite !Z.add_0_r.
  - destruct (Hin i (or_introl eq_refl)) as [Ho He].
    cbn [for_each]. unfold range_body at 1.
    rewrite (index_in_bounds EmptyString _ _ Ho), (index_in_bounds EmptyString _ _ He).
    cbn [Py.bind filter fst snd].
    fold (field_at our_fields i) (field_at expected_fields i).
    unfold differ at 1. fold (agree our_fields expected_fields i).
    destruct (agree our_fields expected_fields i); cbn [Py.bind negb];
      rewrite IH by (intros; apply Hin; now right);
      cbn [fst snd]; unfold len; cbn [List.length]; f_equal; f_equal; lia.
Qed.

Lemma range_step_closed_form (r : Z * Z * string) (rows : list range_row) :
  1 <= fst (fst r) ->
  range_step our_fields expected_fields r rows
  = Ok (rows ++ range_report our_fields expected_fields r).
Proof.
  destruct r as [[start end_] description]. cbn [fst snd]. intros Hstart.
  unfold range_step.
  rewrite range_count_loop by (intros i Hi; apply in_range in Hi; lia).
  cbn [Py.bind fst snd]. rewrite Z.add_0_l.
  unfold range_report, range_overlap, range_agreeing. cbn [fst snd].
  destruct (_ >? 0) eqn:E; [|now rewrite app_nil_r].
  unfold truediv.
  replace (_ =? 0) with false; [reflexivity|].
  symmetry. apply Z.eqb_neq. rewrite Z.gtb_ltb in E. apply Z.ltb_lt in E. lia.
Qed.

Lemma range_loop (rs : list (Z * Z * string)) :
  Forall (fun r => 1 <= fst (fst r)) rs ->
  forall rows,
    for_each rs rows (range_step our_fields expected_fields)
    = Ok (rows ++ flat_map (range_report our_fields expected_fields) rs).
Proof.
  induction 1 as [|r rs Hr Hrs IH]; intros rows.
  - cbn. now rewrite app_nil_r.
  - cbn [for_each flat_map]. rewrite range_step_closed_form by exact Hr.
    cbn [Py.bind]. rewrite IH. now rewrite app_assoc.
Qed.

Lemma range_report_row (r : Z * Z * string) (row : range_row) :
  In row (range_report our_fields expected_fields r) ->
  row = RangeRow (snd r) (fst (fst r)) (snd (fst r))
          (range_agreeing our_fields expected_fields r)
          (range_overlap our_fields expected_fields r)
          (inject_Z (range_agreeing our_fields expected_fields r)
           / inject_Z (range_overlap our_fields expected_fields r)
           * inject_Z 100)%Q
  /\ 0 < range_overlap our_fields expected_fields r
  /\ 0 <= range_agreeing our_fields expected_fields r
     <= range_overlap our_fields expected_fields r.
Proof.
  unfold range_report.
  destruct (_ >? 0) eqn:E; [|intros []].
  intros [<- | []]. rewrite Z.gtb_ltb in E. apply Z.ltb_lt in E.
  split; [reflexivity|]. split; [exact E|].
  unfold range_agreeing.
  pose proof (len_filter_le (agree our_fields expected_fields)
                (range (fst (fst r) - 1)
                   (Z.min (snd (fst r))
                      (Z.min (len our_fields) (len expected_fields))))) as Hle.
  rewrite len_range in Hle. unfold range_overlap in *. lia.
Qed.

End RangeAnalysis.

Section RangeClaims.

Import DetailedComparison.

Lemma ranges_of_reports (our_fields expected_fields : list string)
    (rs : list (Z * Z * string)) :
  map range_of_row (flat_map (range_report our_fields expected_fields) rs)
  = filter (fun r => range_overlap our_fields expected_fields r >? 0) rs.
Proof.
  induction rs as [|r rs IH]; [reflexivity|].
  cbn [flat_map filter]. rewrite map_app, IH. unfold range_report at 1.
  destruct (_ >? 0); [|reflexivity].
  destruct r as [[start end_] description]. reflexivity.
Qed.

(** C4, as the claim words it: a range without overlap would still get a
    row, with percentage 0.  On two records of 20 fields the range 21-50 has
    [total_range = 0]; the guard [if total_range > 0] skips it, and so it
    does the seven ranges after it: one row is printed for nine ranges. *)
Lemma range_without_overlap_is_skipped :
  let record := join pipe (repeat "a"%string 20) in
  range_overlap (split pipe record) (split pipe record)
    (21, 50, "Address and Contact"%string) = 0
  /\ range_analysis [(21, 50, "Address and Contact"%string)]
       (split pipe record) (split pipe record) = Ok []
  /\ exists c rows,
       analyze_primary_record record record = Ok (c, rows)
       /\ map rr_description rows = ["Header and Identifiers"%string]
       /\ List.length rows <> List.length ranges.
Proof.
  cbv zeta. split; [reflexivity|]. split; [reflexivity|].
  eexists. eexists. split; [vm_compute; reflexivity|].
  split; [reflexivity | discriminate].
Qed.

(** C4.  For ranges over 1-based field positions the range analysis never
    raises.  A range gets a row exactly when it overlaps both sequences
    ([total_range > 0]); a range without overlap is skipped, no value is
    reported for it.  In a row, only the positions of the range that both
    sequences have are compared, the percentage is
    [matches / total_range * 100], and it lies between 0 and 100. *)
Theorem range_analysis_rows
    (our_fields expected_fields : list string) (rs : list (Z * Z * string))
    (Hrs : Forall (fun r => 1 <= fst (fst r)) rs) :
  exists rows,
    range_analysis rs our_fields expected_fields = Ok rows
    /\ map range_of_row rows
       = filter (fun r => range_overlap our_fields expected_fields r >? 0) rs
    /\ forall row, In row rows ->
         0 < rr_total row
         /\ rr_total row
            = Z.min (rr_end row) (Z.min (len our_fields) (len expected_fields))
              - (rr_start row - 1)
         /\ rr_matches row
            = len (filter (agree our_fields expected_fields)
                     (range (rr_start row - 1)
                        (Z.min (rr_end row)
                           (Z.min (len our_fields) (len expected_fields)))))
         /\ 0 <= rr_matches row <= rr_total row
         /\ rr_match_pct row
            = (inject_Z (rr_matches row) / inject_Z (rr_total row)
               * inject_Z 100)%Q
         /\ (0 <= rr_match_pct row <= inject_Z 100)%Q.
Proof.
  exists (flat_map (range_report our_fields expected_fields) rs).
  split.
  { unfold range_analysis. now rewrite range_loop. }
  split; [apply ranges_of_reports|].
  intros row Hrow. apply in_flat_map in Hrow as (r & _ & Hrow).
  apply range_report_row in Hrow as (-> & Hpos & Hle).
  cbn [rr_total rr_matches rr_match_pct rr_start rr_end].
  split; [exact Hpos|].
  split; [reflexivity|].
  split; [reflexivity|].
  split; [exact Hle|].
  split; [reflexivity|].
  now apply percent_bounds.
Qed.

(** The table of the script, on two records of three fields that differ in
    the second: one row, two matches out of three. *)
Lemma range_analysis_rows_on_table :
  Forall (fun r => 1 <= fst (fst r)) ranges
  /\ exists rows,
       range_analysis ranges ["1"; "2"; "3"]%string ["1"; "X"; "3"]%string
       = Ok rows
       /\ map range_of_row rows = [(1, 20, "Header and Identifiers"%string)].
Proof.
  assert (Forall (fun r => 1 <= fst (fst r)) ranges) as H
    by (repeat constructor; cbn; lia).
  split; [exact H|].
  destruct (range_analysis_rows ["1"; "2"; "3"]%string ["1"; "X"; "3"]%string
              ranges H) as (rows & Hrun & Hmap & _).
  exists rows. split; [exact Hrun | exact Hmap].
Defined.

End RangeClaims.

(** ** Slices *)

Section Slices.

Context {A : Type}.

Lemma slice_nonneg (l : list A) (start stop : Z) :
  0 <= start < len l -> 0 <= stop ->
  slice l start stop
  = firstn (Z.to_nat (Z.min stop (len l) - start)) (skipn (Z.to_nat start) l).
Proof.
  intros Hs He. unfold slice, clamp.
  replace (start <? 0) with false by (symmetry; apply Z.ltb_ge; lia).
  replace (stop <? 0) with false by (symmetry; apply Z.ltb_ge; lia).
  now rewrite (Z.min_l start) by lia.
Qed.

Lemma len_slice (l : list A) (start stop : Z) :
  0 <= start < len l -> 0 <= stop ->
  len (slice l start stop) = Z.max 0 (Z.min stop (len l) - start).
Proof.
  intros Hs He. rewrite slice_nonneg by assumption.
  unfold len in *. rewrite length_firstn, length_skipn. lia.
Qed.

Lemma item_slice (d : A) (l : list A) (start stop i : Z) :
  0 <= start < len l -> 0 <= stop ->
  0 <= i < len (slice l start stop) ->
  item d (slice l start stop) i = item d l (start + i).
Proof.
  intros Hs He Hi. rewrite len_slice in Hi by assumption.
  rewrite slice_nonneg by assumption. unfold item.
  rewrite nth_firstn.
  replace (Z.to_nat i <? Z.to_nat (Z.min stop (len l) - start))%nat with true
    by (symmetry; apply Nat.ltb_lt; lia).
  rewrite nth_skipn. f_equal. lia.
Qed.

End Slices.

(** ** field_accuracy_analysis.py: the windows *)

Section Windows.

Import FieldAccuracyAnalysis.

Variables actual_data expected_data : list byte.

Lemma range_shift (a n : Z) :
  range a (a + n) = map (fun k => a + k) (range 0 n).
Proof.
  unfold range. rewrite map_map.
  replace (a + n - a) with (n - 0) by lia. reflexivity.
Qed.

Lemma len_filter_map {X Y} (p : Y -> bool) (f : X -> Y) (l : list X) :
  len (filter p (map f l)) = len (filter (fun x => p (f x)) l).
Proof.
  unfold len. induction l as [|x l IH]; cbn [map filter]; [reflexivity|].
  destruct (p (f x)); cbn [List.length]; lia.
Qed.

Lemma count_matches_closed_form (actual_field expected_field : list byte) (n : Z) :
  n <= len actual_field -> n <= len expected_field ->
  count_matches actual_field expected_field n
  = Ok (len (filter (fun i => Byte.eqb (item x00 actual_field i)
                                       (item x00 expected_field i))
               (range 0 n))).
Proof.
  intros Ha He. unfold count_matches.
  assert (forall indices,
             (forall i, In i indices -> 0 <= i < n) ->
             forall acc,
               for_each indices acc
                 (fun i acc =>
                    a <- index actual_field i ;;
                    b <- index expected_field i ;;
                    Ok (if Byte.eqb a b then acc + 1 else acc))
               = Ok (acc + len (filter (fun i => Byte.eqb (item x00 actual_field i)
                                                          (item x00 expected_field i))
                                  indices))) as Hloop.
  { induction indices as [|i rest IH]; intros Hin acc.
    - cbn. now rewrite Z.add_0_r.
    - pose proof (Hin i (or_introl eq_refl)) as Hi.
      cbn [for_each filter].
      rewrite (index_in_bounds x00) by lia.
      rewrite (index_in_bounds x00) by lia.
      cbn [Py.bind]. rewrite IH by (intros; apply Hin; now right).
      destruct (Byte.eqb _ _); unfold len; cbn [List.length]; f_equal; lia. }
  rewrite Hloop by (intros i Hi; now apply in_range in Hi).
  now rewrite Z.add_0_l.
Qed.

Lemma percent_or_zero_closed_form (num den : Z) :
  0 <= den -> percent_or_zero num den = Ok (percent num den).
Proof.
  intros Hden. unfold percent_or_zero, percent, truediv.
  destruct (den >? 0) eqn:E; rewrite Z.gtb_ltb in E.
  - apply Z.ltb_lt in E.
    replace (den =? 0) with false by (symmetry; apply Z.eqb_neq; lia).
    reflexivity.
  - apply Z.ltb_ge in E.
    replace (den =? 0) with true by (symmetry; apply Z.eqb_eq; lia).
    reflexivity.
Qed.

(** Inside a window that starts in both buffers, the compared length and
    the number of equal bytes of the two slices are those of the window. *)
Lemma slices_length (start end_ : Z) (description : string) :
  0 <= start < len actual_data -> 0 <= start < len expected_data -> 0 <= end_ ->
  Z.min (len (slice actual_data start end_)) (len (slice expected_data start end_))
  = window_length actual_data expected_data (start, end_, description).
Proof.
  intros Ha He Hend. rewrite !len_slice by assumption.
  unfold window_length. cbn [fst snd]. lia.
Qed.

Lemma slices_matches (start end_ : Z) (description : string) :
  0 <= start < len actual_data -> 0 <= start < len expected_data -> 0 <= end_ ->
  len (filter (fun i => Byte.eqb (item x00 (slice actual_data start end_) i)
                                 (item x00 (slice expected_data start end_) i))
         (range 0 (window_length actual_data expected_data
                     (start, end_, description))))
  = window_matches actual_data expected_data (start, end_, description).
Proof.
  intros Ha He Hend. unfold window_matches. cbn [fst snd].
  rewrite range_shift, len_filter_map. f_equal.
  apply filter_ext_in. intros i Hi. apply in_range in Hi.
  rewrite <- (slices_length start end_ description) in Hi by assumption.
  rewrite !item_slice by (assumption || lia). reflexivity.
Qed.

Lemma field_step_closed_form (w : Z * Z * string) (st : totals) :
  0 <= fst (fst w) -> 0 <= snd (fst w) ->
  field_step actual_data expected_data w st
  = Ok (Totals
          (total_analyzed st
           + sum (map fr_field_length (window_report actual_data expected_data w)))
          (total_matching st
           + sum (map fr_matches (window_report actual_data expected_data w)))
          (printed st ++ window_report actual_data expected_data w)).
Proof.
  destruct w as [[start end_] description]. cbn [fst snd]. intros Hs He.
  unfold field_step, window_report, window_in_bounds. cbn [fst snd].
  destruct ((start <? len actual_data) && (start <? len expected_data)) eqn:E.
  - apply andb_true_iff in E as [E1 E2].
    apply Z.ltb_lt in E1. apply Z.ltb_lt in E2.
    rewrite count_matches_closed_form by lia. cbn [Py.bind].
    rewrite (slices_length start end_ description) by lia.
    rewrite (slices_matches start end_ description) by lia.
    rewrite percent_or_zero_closed_form by (unfold window_length; lia).
    cbn [Py.bind map sum fold_right fr_field_length fr_matches].
    now rewrite !Z.add_0_r.
  - cbn [map sum fold_right]. rewrite !Z.add_0_r, app_nil_r. now destruct st.
Qed.

Lemma window_loop (windows : list (Z * Z * string)) :
  Forall (fun w => 0 <= fst (fst w) /\ 0 <= snd (fst w)) windows ->
  forall st,
    for_each windows st (field_step actual_data expected_data)
    = Ok (Totals
            (total_analyzed st
             + sum (map fr_field_length
                      (flat_map (window_report actual_data expected_data) windows)))
            (total_matching st
             + sum (map fr_matches
                      (flat_map (window_report actual_data expected_data) windows)))
            (printed st ++ flat_map (window_report actual_data expected_data) windows)).
Proof.
  assert (forall l1 l2, sum (l1 ++ l2) = sum l1 + sum l2) as Hsum.
  { unfold sum. induction l1 as [|x l1 IH]; intros l2; cbn [app fold_right];
      [reflexivity|].
    rewrite IH. lia. }
  induction 1 as [|w ws [Hs He] Hws IH]; intros st.
  - cbn. rewrite !Z.add_0_r, app_nil_r. now destruct st.
  - cbn [for_each flat_map]. rewrite field_step_closed_form by assumption.
    cbn [Py.bind]. rewrite IH.
    cbn [total_analyzed total_matching printed].
    rewrite !map_app, !Hsum, !Z.add_assoc, app_assoc. reflexivity.
Qed.

Lemma windows_of_reports (windows : list (Z * Z * string)) :
  map window_of_row (flat_map (window_report actual_data expected_data) windows)
  = filter (window_in_bounds actual_data expected_data) windows.
Proof.
  induction windows as [|w ws IH]; [reflexivity|].
  cbn [flat_map filter]. rewrite map_app, IH. unfold window_report at 1.
  destruct (window_in_bounds _ _ w); [|reflexivity].
  destruct w as [[start end_] description]. reflexivity.
Qed.

Lemma sum_nonneg (l : list Z) : Forall (fun x => 0 <= x) l -> 0 <= sum l.
Proof. unfold sum. induction 1; cbn [fold_right]; lia. Qed.

Lemma percent_range (num den : Z) :
  0 <= num <= den -> (0 <= percent num den <= inject_Z 100)%Q.
Proof.
  intros H. unfold percent. destruct (den =? 0) eqn:E.
  - split; unfold Qle; cbn; lia.
  - apply Z.eqb_neq in E. apply percent_bounds; lia.
Qed.

Lemma window_matches_le (w : Z * Z * string) :
  0 <= window_matches actual_data expected_data w
    <= window_length actual_data expected_data w.
Proof.
  unfold window_matches.
  pose proof (len_filter_le (same_byte actual_data expected_data)
                (range (fst (fst w))
                   (fst (fst w) + window_length actual_data expected_data w))) as H.
  rewrite len_range in H. unfold window_length in *. lia.
Qed.

End Windows.

Section BinaryReport.

Import FieldAccuracyAnalysis.

Variables actual_data expected_data : list byte.

Lemma record_structure_closed_form :
  record_structure actual_data
  = Ok (len actual_data / expected_record_size,
        if len actual_data / expected_record_size >? 0
        then len actual_data / (len actual_data / expected_record_size)
        else 0).
Proof.
  unfold record_structure, floordiv, expected_record_size.
  cbn [Z.eqb Py.bind].
  destruct (len actual_data / 2000 >? 0) eqn:E; [|reflexivity].
  rewrite Z.gtb_ltb in E. apply Z.ltb_lt in E.
  replace (len actual_data / 2000 =? 0) with false
    by (symmetry; apply Z.eqb_neq; lia).
  reflexivity.
Qed.

Lemma key_fields_nonneg :
  Forall (fun w => 0 <= fst (fst w) /\ 0 <= snd (fst w)) key_fields.
Proof. repeat constructor; cbn; lia. Qed.

Lemma window_report_length_nonneg (windows : list (Z * Z * string)) :
  Forall (fun x => 0 <= x)
    (map fr_field_length
       (flat_map (window_report actual_data expected_data) windows)).
Proof.
  apply Forall_forall. intros x Hx.
  apply in_map_iff in Hx as (row & <- & Hrow).
  apply in_flat_map in Hrow as (w & _ & Hrow).
  unfold window_report in Hrow.
  destruct (window_in_bounds _ _ w); [|destruct Hrow].
  destruct Hrow as [<- | []]. cbn [fr_field_length].
  unfold window_length. lia.
Qed.

(** The whole report never raises, whatever the two buffers. *)
Lemma analyze_binary_accuracy_total :
  exists r,
    analyze_binary_accuracy actual_data expected_data = Ok r
    /\ map window_of_row (rp_rows r)
       = filter (window_in_bounds actual_data expected_data) key_fields
    /\ rp_overall_accuracy r
       = percent (rp_total_matching r) (rp_total_analyzed r).
Proof.
  unfold analyze_binary_accuracy, window_analysis.
  rewrite window_loop by apply key_fields_nonneg.
  cbn [Py.bind total_analyzed total_matching printed app].
  rewrite !Z.add_0_l.
  rewrite percent_or_zero_closed_form
    by (apply sum_nonneg, window_report_length_nonneg).
  cbn [Py.bind]. rewrite record_structure_closed_form. cbn [Py.bind].
  eexists. split; [reflexivity|].
  cbn [rp_rows rp_overall_accuracy rp_total_matching rp_total_analyzed].
  split; [apply windows_of_reports | reflexivity].
Qed.

End BinaryReport.

Section WindowClaims.

Import FieldAccuracyAnalysis.

(** C6.  For windows of byte offsets the window loop never raises.  A
    window gets a row exactly when its start is inside both buffers, the
    others are skipped.  For a window with a row, the slice of each buffer is
    [[start, min(end, len(buffer)))], the compared length is the shorter slice
    length, the matches are the offsets of that stretch where the two buffers
    hold the same byte, the accuracy is [matches / length * 100], and 0 when the
    length is 0.  The totals are the sums over the rows, and the overall
    accuracy is [total_matching / total_analyzed * 100] (0 when nothing was
    compared). *)
Theorem window_analysis_rows
    (actual_data expected_data : list byte) (windows : list (Z * Z * string))
    (Hw : Forall (fun w => 0 <= fst (fst w) /\ 0 <= snd (fst w)) windows) :
  exists t,
    window_analysis windows actual_data expected_data = Ok t
    /\ map window_of_row (printed t)
       = filter (window_in_bounds actual_data expected_data) windows
    /\ (forall start end_ description,
          In (start, end_, description) windows ->
          window_in_bounds actual_data expected_data (start, end_, description)
          = true ->
          slice actual_data start end_
          = firstn (Z.to_nat (Z.min end_ (len actual_data) - start))
              (skipn (Z.to_nat start) actual_data)
          /\ slice expected_data start end_
             = firstn (Z.to_nat (Z.min end_ (len expected_data) - start))
                 (skipn (Z.to_nat start) expected_data)
          /\ Z.min (len (slice actual_data start end_))
               (len (slice expected_data start end_))
             = window_length actual_data expected_data (start, end_, description))
    /\ (forall row, In row (printed t) ->
          fr_field_length row
          = window_length actual_data expected_data (window_of_row row)
          /\ fr_matches row
             = window_matches actual_data expected_data (window_of_row row)
          /\ 0 <= fr_matches row <= fr_field_length row
          /\ fr_accuracy row
             = (if fr_field_length row =? 0 then 0%Q
                else (inject_Z (fr_matches row) / inject_Z (fr_field_length row)
                      * inject_Z 100)%Q)
          /\ (0 <= fr_accuracy row <= inject_Z 100)%Q)
    /\ total_analyzed t = sum (map fr_field_length (printed t))
    /\ total_matching t = sum (map fr_matches (printed t))
    /\ percent_or_zero (total_matching t) (total_analyzed t)
       = Ok (if total_analyzed t =? 0 then 0%Q
             else (inject_Z (total_matching t) / inject_Z (total_analyzed t)
                   * inject_Z 100)%Q).
Proof.
  eexists. split; [unfold window_analysis; now apply window_loop|].
  cbn [printed total_analyzed total_matching app].
  set (rows := flat_map (window_report actual_data expected_data) windows).
  assert (forall row, In row rows ->
            exists w, row = FieldRow (snd w) (fst (fst w)) (snd (fst w))
                              (window_length actual_data expected_data w)
                              (window_matches actual_data expected_data w)
                              (percent (window_matches actual_data expected_data w)
                                 (window_length actual_data expected_data w)))
    as Hrows.
  { intros row Hrow. apply in_flat_map in Hrow as (w & _ & Hrow).
    exists w. unfold window_report in Hrow.
    destruct (window_in_bounds _ _ w); [|destruct Hrow].
    now destruct Hrow as [<- | []]. }
  split; [apply windows_of_reports|].
  split.
  { intros start end_ description Hin Hb.
    rewrite Forall_forall in Hw. destruct (Hw _ Hin) as [Hs He]. cbn [fst snd] in *.
    unfold window_in_bounds in Hb. cbn [fst snd] in Hb.
    apply andb_true_iff in Hb as [H1 H2].
    apply Z.ltb_lt in H1. apply Z.ltb_lt in H2.
    split; [apply slice_nonneg; lia|].
    split; [apply slice_nonneg; lia|].
    apply slices_length; lia. }
  split.
  { intros row Hrow. destruct (Hrows row Hrow) as ([[start end_] description] & ->).
    cbn [fst snd fr_field_length fr_matches fr_accuracy window_of_row
           fr_start fr_end fr_description].
    pose proof (window_matches_le actual_data expected_data
                  (start, end_, description)) as Hle.
    split; [reflexivity|]. split; [reflexivity|]. split; [exact Hle|].
    split; [reflexivity|]. now apply percent_range. }
  rewrite !Z.add_0_l.
  split; [reflexivity|]. split; [reflexivity|].
  apply percent_or_zero_closed_form.
  apply sum_nonneg, window_report_length_nonneg.
Qed.

(** The table of the script on two buffers of three bytes that differ in
    the second: only the first window starts inside the buffers. *)
Lemma window_analysis_rows_on_table :
  Forall (fun w => 0 <= fst (fst w) /\ 0 <= snd (fst w)) key_fields
  /\ exists t,
       window_analysis key_fields [x01; x02; x03] [x01; xff; x03] = Ok t
       /\ map window_of_row (printed t) = [(0, 3, "Client Number (503)"%string)].
Proof.
  pose proof key_fields_nonneg as H.
  split; [exact H|].
  destruct (window_analysis_rows [x01; x02; x03] [x01; xff; x03] key_fields H)
    as (t & Hrun & Hmap & _).
  exists t. split; [exact Hrun | exact Hmap].
Defined.

(** One window over three bytes, one of them wrong: two matches out of
    three. *)
Example window_two_of_three :
  exists accuracy,
    window_analysis [(0, 3, "W"%string)] [x01; x02; x03] [x01; xff; x03]
    = Ok (Totals 3 2 [FieldRow "W"%string 0 3 3 2 accuracy])
    /\ (accuracy == 200 # 3)%Q.
Proof. eexists. split; reflexivity. Qed.

(** C7.  The record structure check never raises: the record count is the
    integer quotient [len(actual_data) // 2000], the derived record size is
    the integer quotient [len(actual_data) // count] when the count is
    positive and 0 when the count is 0; a buffer of 10000 bytes gives 5
    records of 2000 bytes. *)
Theorem record_structure_integer_division (actual_data : list byte) :
  exists count size,
    record_structure actual_data = Ok (count, size)
    /\ count = len actual_data / expected_record_size
    /\ expected_record_size * count <= len actual_data
       < expected_record_size * (count + 1)
    /\ (0 < count ->
        size = len actual_data / count
        /\ count * size <= len actual_data < count * (size + 1))
    /\ (count = 0 <-> len actual_data < expected_record_size)
    /\ (count = 0 -> size = 0)
    /\ (len actual_data = 10000 -> count = 5 /\ size = 2000)
    /\ record_structure (repeat x00 (Z.to_nat 10000)) = Ok (5, 2000).
Proof.
  pose proof (len_nonneg actual_data) as Hlen.
  do 2 eexists. split; [apply record_structure_closed_form|].
  unfold expected_record_size.
  set (n := len actual_data) in *.
  assert (0 <= n / 2000) as Hq by (apply Z.div_pos; lia).
  pose proof (Z.mul_div_le n 2000 ltac:(lia)) as Hlo.
  pose proof (Z.mul_succ_div_gt n 2000 ltac:(lia)) as Hhi.
  split; [reflexivity|]. split; [lia|].
  destruct (n / 2000 >? 0) eqn:E; rewrite Z.gtb_ltb in E.
  - apply Z.ltb_lt in E.
    split.
    { intros _. split; [reflexivity|].
      pose proof (Z.mul_div_le n (n / 2000) ltac:(lia)).
      pose proof (Z.mul_succ_div_gt n (n / 2000) ltac:(lia)). lia. }
    split; [lia|]. split; [lia|].
    split; [|vm_compute; reflexivity].
    intros Hn. rewrite Hn. split; reflexivity.
  - apply Z.ltb_ge in E. assert (n / 2000 = 0) as H0 by lia.
    rewrite H0 in *. split; [lia|].
    split; [lia|]. split; [reflexivity|].
    split; [|vm_compute; reflexivity].
    intros Hn. rewrite Hn in H0. discriminate H0.
Qed.

End WindowClaims.

(** * Further properties of the scripts *)

(** ** More facts about lists and ranges *)

Section ListFacts.

Lemma filter_nil_iff {A} (p : A -> bool) (l : list A) :
  filter p l = [] <-> forall x, In x l -> p x = false.
Proof.
  induction l as [|x l IH]; cbn [filter].
  - split; [intros _ y [] | reflexivity].
  - destruct (p x) eqn:E.
    + split; [discriminate|]. intros H. specialize (H x (or_introl eq_refl)).
      congruence.
    + rewrite IH. split.
      * intros H y [<- | Hy]; auto.
      * intros H y Hy. apply H. now right.
Qed.

Lemma filter_all {A} (p : A -> bool) (l : list A) :
  (forall x, In x l -> p x = true) -> filter p l = l.
Proof.
  induction l as [|x l IH]; intros H; cbn [filter]; [reflexivity|].
  rewrite (H x (or_introl eq_refl)). f_equal. apply IH. intros; apply H; now right.
Qed.

Lemma len_filter_full_iff {A} (p : A -> bool) (l : list A) :
  len (filter p l) = len l <-> forall x, In x l -> p x = true.
Proof.
  split.
  - induction l as [|x l IH]; intros H y Hy; [destruct Hy|].
    cbn [filter] in H. pose proof (len_filter_le p l) as Hle.
    destruct (p x) eqn:E; unfold len in *; cbn [List.length] in *.
    + destruct Hy as [<- | Hy]; [exact E|]. apply IH; [lia | exact Hy].
    + lia.
  - intros H. now rewrite filter_all.
Qed.

Lemma len_app {A} (l1 l2 : list A) : len (l1 ++ l2) = len l1 + len l2.
Proof. unfold len. rewrite length_app. lia. Qed.

Lemma map_nil_iff {A B} (f : A -> B) (l : list A) : map f l = [] <-> l = [].
Proof. destruct l; cbn; split; congruence. Qed.

Lemma range_nil_iff (a b : Z) : range a b = [] <-> b <= a.
Proof.
  split; [|apply range_empty].
  intros H. destruct (Z_le_gt_dec b a) as [Hle | Hgt]; [exact Hle|].
  assert (In a (range a b)) as Hin by (apply in_range; lia).
  rewrite H in Hin. destruct Hin.
Qed.

Lemma seq_from (n m : nat) : seq n m = map (fun k => (n + k)%nat) (seq 0 m).
Proof.
  revert n. induction m as [|m IH]; intros n; [reflexivity|].
  cbn [seq map]. rewrite Nat.add_0_r. f_equal.
  rewrite (IH (S n)), (IH 1%nat), map_map. apply map_ext. intros k. lia.
Qed.

Lemma range_app (a b c : Z) :
  a <= b <= c -> range a c = range a b ++ range b c.
Proof.
  intros H. unfold range.
  replace (Z.to_nat (c - a)) with (Z.to_nat (b - a) + Z.to_nat (c - b))%nat by lia.
  rewrite seq_app, map_app. f_equal. cbn [Nat.add].
  rewrite seq_from, map_map. apply map_ext. intros k. lia.
Qed.

Lemma filter_below_range (a b k : Z) :
  a <= k -> filter (fun i => i <? k) (range a b) = range a (Z.min k b).
Proof.
  intros Hk. destruct (Z_le_gt_dec b a) as [Hle | Hgt].
  - rewrite (range_empty a b), (range_empty a (Z.min k b)) by lia. reflexivity.
  - rewrite (range_app a (Z.min k b) b) by lia.
    rewrite filter_app. rewrite filter_all.
    + replace (filter _ (range (Z.min k b) b)) with (@nil Z);
        [now rewrite app_nil_r|].
      symmetry. apply filter_nil_iff. intros i Hi. apply in_range in Hi.
      apply Z.ltb_ge. lia.
    + intros i Hi. apply in_range in Hi. apply Z.ltb_lt. lia.
Qed.

Lemma agree_true_iff (xs ys : list string) (i : Z) :
  agree xs ys i = true <-> field_at xs i = field_at ys i.
Proof. unfold agree. apply String.eqb_eq. Qed.

Lemma differ_false_iff (xs ys : list string) (i : Z) :
  differ xs ys i = false <-> field_at xs i = field_at ys i.
Proof.
  unfold differ. rewrite negb_false_iff. apply agree_true_iff.
Qed.

(** Two sequences of the same length with the same field at every index
    are the same sequence. *)
Lemma fields_ext (xs ys : list string) :
  len xs = len ys ->
  (forall i, 0 <= i < len xs -> field_at xs i = field_at ys i) ->
  xs = ys.
Proof.
  intros Hlen H. apply (nth_ext xs ys EmptyString EmptyString).
  - unfold len in Hlen. lia.
  - intros k Hk. specialize (H (Z.of_nat k)).
    unfold field_at, item in H. rewrite Nat2Z.id in H. apply H.
    unfold len. lia.
Qed.

(** The expected sequence is the beginning of ours when ours is at least as
    long and agrees with it at every index of the expected sequence. *)
Lemma prefix_iff (xs ys : list string) :
  firstn (List.length ys) xs = ys
  <-> len ys <= len xs
      /\ forall i, 0 <= i < len ys -> field_at xs i = field_at ys i.
Proof.
  split.
  - intros H. assert (len ys <= len xs) as Hle.
    { unfold len. apply inj_le. rewrite <- H at 1. rewrite length_firstn. lia. }
    split; [exact Hle|]. intros i Hi. unfold field_at, item.
    rewrite <- H at 1. rewrite nth_firstn.
    replace (Z.to_nat i <? List.length ys)%nat with true; [reflexivity|].
    symmetry. apply Nat.ltb_lt. unfold len in Hi. lia.
  - intros [Hle H]. apply fields_ext.
    + unfold len in *. rewrite length_firstn. lia.
    + intros i Hi. unfold field_at, item in *. rewrite nth_firstn.
      assert (len (firstn (List.length ys) xs) = len ys) as Hl
        by (unfold len in *; rewrite length_firstn; lia).
      rewrite Hl in Hi.
      replace (Z.to_nat i <? List.length ys)%nat with true
        by (symmetry; apply Nat.ltb_lt; unfold len in Hi; lia).
      now apply H.
Qed.

End ListFacts.

(** ** detailed_comparison.py: what a comparison tells *)

Section ComparisonExtras.

Import DetailedComparison.

Lemma percent_full_iff (m t : Z) :
  0 <= m <= t -> 0 < t ->
  ((inject_Z m / inject_Z t * inject_Z 100 == inject_Z 100)%Q <-> m = t).
Proof.
  intros Hm Ht. destruct t as [|p|p]; try lia.
  unfold Qeq, Qdiv, Qmult, Qinv, inject_Z. cbn [Qnum Qden].
  rewrite !Pos.mul_1_l, !Pos.mul_1_r, !Z.mul_1_r. lia.
Qed.

Lemma critical_loop (our_fields expected_fields : list string) (indices : list Z) :
  (forall i, In i indices ->
             0 <= i < len our_fields /\ 0 <= i < len expected_fields) ->
  forall k,
    for_each indices k (critical_body our_fields expected_fields)
    = Ok (k + len (filter (differ our_fields expected_fields) indices)).
Proof.
  induction indices as [|i rest IH]; intros Hin k.
  - cbn. now rewrite Z.add_0_r.
  - destruct (Hin i (or_introl eq_refl)) as [Ho He].
    cbn [for_each filter]. unfold critical_body at 1.
    rewrite (index_in_bounds EmptyString _ _ Ho), (index_in_bounds EmptyString _ _ He).
    cbn [Py.bind].
    fold (field_at our_fields i) (field_at expected_fields i).
    fold (agree our_fields expected_fields i).
    fold (differ our_fields expected_fields i).
    destruct (differ our_fields expected_fields i); cbn [Py.bind];
      rewrite IH by (intros; apply Hin; now right);
      unfold len; cbn [List.length]; f_equal; lia.
Qed.

(** X1.  The comparison is clean (no mismatch, nothing missing, nothing
    extra) exactly when the two field sequences are equal. *)
Theorem compare_fields_clean_iff_equal
    (our_fields expected_fields : list string) (rtype : string) :
  exists c,
    compare_fields our_fields expected_fields rtype = Ok c
    /\ (mismatches c = [] /\ missing_fields c = [] /\ extra_fields c = []
        <-> our_fields = expected_fields).
Proof.
  eexists. split; [apply compare_fields_closed_form|].
  cbn [mismatches missing_fields extra_fields].
  rewrite !map_nil_iff, !range_nil_iff, filter_nil_iff.
  split.
  - intros (Hmm & Hmiss & Hextra).
    apply fields_ext; [lia|].
    intros i Hi. apply differ_false_iff. apply Hmm. apply in_range. lia.
  - intros <-. split; [|lia].
    intros i _. now apply differ_false_iff.
Qed.

(** X2.  A comparison never has both missing and extra entries; every
    mismatch lies inside the common part, every missing or extra entry behind
    it, at a position that does not exceed the longer sequence. *)
Theorem compare_fields_entries_apart
    (our_fields expected_fields : list string) (rtype : string) :
  exists c,
    compare_fields our_fields expected_fields rtype = Ok c
    /\ (missing_fields c = [] \/ extra_fields c = [])
    /\ (forall m, In m (mismatches c) ->
          1 <= mm_field_index m <= Z.min (len our_fields) (len expected_fields))
    /\ (forall m, In m (missing_fields c) ->
          len our_fields < mf_field_index m <= len expected_fields)
    /\ (forall e, In e (extra_fields c) ->
          len expected_fields < ef_field_index e <= len our_fields).
Proof.
  eexists. split; [apply compare_fields_closed_form|].
  cbn [mismatches missing_fields extra_fields].
  split.
  { destruct (Z_le_gt_dec (len expected_fields) (len our_fields)).
    - left. now rewrite range_empty.
    - right. rewrite range_empty by lia. reflexivity. }
  split.
  { intros m Hm. apply in_map_iff in Hm as (i & <- & Hi).
    apply filter_In in Hi as [Hi _]. apply in_range in Hi. cbn. lia. }
  split.
  - intros m Hm. apply in_map_iff in Hm as (i & <- & Hi).
    apply in_range in Hi. cbn. lia.
  - intros e He. apply in_map_iff in He as (i & <- & Hi).
    apply in_range in Hi. cbn. lia.
Qed.

(** X3.  The match percentage of the summary is printed unless there is no
    expected field; it lies between 0 and 100, and it is 100 exactly when the
    expected fields are the beginning of our fields: fields of ours behind the
    expected ones do not lower it. *)
Theorem match_percentage_full_iff_prefix
    (our_fields expected_fields : list string) (rtype : string) :
  exists c pct,
    compare_fields our_fields expected_fields rtype = Ok c
    /\ match_percentage c = Ok pct
    /\ (pct = None <-> expected_fields = [])
    /\ forall q, pct = Some q ->
         (0 <= q <= inject_Z 100)%Q
         /\ ((q == inject_Z 100)%Q
             <-> firstn (List.length expected_fields) our_fields = expected_fields).
Proof.
  pose proof (len_nonneg our_fields) as Ho.
  pose proof (len_nonneg expected_fields) as He.
  set (n := Z.min (len our_fields) (len expected_fields)).
  set (m := len (filter (agree our_fields expected_fields) (range 0 n))).
  assert (n <= len our_fields /\ n <= len expected_fields
          /\ (len expected_fields <= len our_fields -> n = len expected_fields))
    as (Hn1 & Hn2 & Hn3) by (subst n; lia).
  assert (0 <= m <= n) as Hm.
  { pose proof (len_filter_le (agree our_fields expected_fields) (range 0 n)) as H.
    rewrite len_range in H. unfold m. lia. }
  destruct (len expected_fields >? 0) eqn:E.
  - rewrite Z.gtb_ltb in E. apply Z.ltb_lt in E.
    exists (Comparison rtype (len our_fields) (len expected_fields) m
              (map (mismatch_at our_fields expected_fields)
                 (filter (differ our_fields expected_fields) (range 0 n)))
              (map (missing_at expected_fields)
                 (range (len our_fields) (len expected_fields)))
              (map (extra_at our_fields)
                 (range (len expected_fields) (len our_fields)))).
    exists (Some (inject_Z m / inject_Z (len expected_fields) * inject_Z 100)%Q).
    split; [apply compare_fields_closed_form|].
    split.
    { unfold match_percentage, truediv. cbn [expected_field_count matches].
      replace (len expected_fields >? 0) with true
        by (symmetry; rewrite Z.gtb_ltb; apply Z.ltb_lt; lia).
      replace (len expected_fields =? 0) with false
        by (symmetry; apply Z.eqb_neq; lia).
      reflexivity. }
    split.
    { split; [discriminate|]. intros ->. cbv in E. discriminate. }
    intros q [= <-].
    split; [apply percent_bounds; lia|].
    rewrite percent_full_iff by lia.
    rewrite prefix_iff. split.
    + intros Hfull. assert (n = len expected_fields) as Hn by lia.
      split; [lia|].
      intros i Hi. apply agree_true_iff.
      assert (len (filter (agree our_fields expected_fields) (range 0 n))
              = len (range 0 n)) as Hall
        by (rewrite len_range; fold m; lia).
      rewrite len_filter_full_iff in Hall. apply Hall. apply in_range. lia.
    + intros [Hle Hag]. assert (n = len expected_fields) as Hn by auto.
      unfold m. rewrite filter_all.
      * rewrite len_range. lia.
      * intros i Hi. apply in_range in Hi. apply agree_true_iff. apply Hag. lia.
  - eexists. exists None. split; [apply compare_fields_closed_form|].
    split.
    { unfold match_percentage. cbn [expected_field_count]. now rewrite E. }
    rewrite Z.gtb_ltb in E. apply Z.ltb_ge in E.
    split; [|discriminate].
    split; [|reflexivity]. intros _.
    destruct expected_fields; [reflexivity|]. unfold len in E. cbn in E. lia.
Qed.

(** X4.  The count of critical mismatches printed for the first 50 fields is
    the number of mismatches of the comparison at positions 1 to 50. *)
Theorem critical_mismatches_are_first_50
    (our_fields expected_fields : list string) (rtype : string) :
  exists c k,
    compare_fields our_fields expected_fields rtype = Ok c
    /\ critical_mismatches our_fields expected_fields = Ok k
    /\ k = len (filter (fun m => mm_field_index m <=? 50) (mismatches c))
    /\ 0 <= k <= 50
    /\ (Z.min (len our_fields) (len expected_fields) <= 50 ->
        k = len (mismatches c)).
Proof.
  pose proof (len_nonneg our_fields) as Ho.
  pose proof (len_nonneg expected_fields) as He.
  eexists. eexists. split; [apply compare_fields_closed_form|].
  unfold critical_mismatches.
  rewrite critical_loop by (intros i Hi; apply in_range in Hi; lia).
  rewrite Z.add_0_l. split; [reflexivity|].
  cbn [mismatches].
  set (n := Z.min (len our_fields) (len expected_fields)).
  assert (filter (differ our_fields expected_fields) (range 0 (Z.min 50 n))
          = filter (fun i => i <? 50)
              (filter (differ our_fields expected_fields) (range 0 n))) as Hcut.
  { rewrite <- filter_below_range by lia.
    rewrite <- !filter_andb. apply filter_ext. intros i. apply andb_comm. }
  split.
  { rewrite len_filter_map. rewrite Hcut. f_equal.
    apply filter_ext. intros i. cbn.
    destruct (i <? 50) eqn:E1, (i + 1 <=? 50) eqn:E2; try reflexivity;
      [apply Z.ltb_lt in E1; apply Z.leb_gt in E2
      | apply Z.ltb_ge in E1; apply Z.leb_le in E2]; lia. }
  split.
  { pose proof (len_filter_le (differ our_fields expected_fields)
                  (range 0 (Z.min 50 n))) as H.
    rewrite len_range in H. lia. }
  intros Hn. rewrite len_map. now rewrite (Z.min_r 50 n) by lia.
Qed.

End ComparisonExtras.

(** ** detailed_comparison.py: the ranges of the table together *)

Section RangeTable.

Import DetailedComparison.
Import FieldAccuracyAnalysis.

Variables our_fields expected_fields : list string.

Lemma sum_app (l1 l2 : list Z) : sum (l1 ++ l2) = sum l1 + sum l2.
Proof.
  unfold sum. induction l1 as [|x l1 IH]; cbn [app fold_right]; [reflexivity|].
  rewrite IH. lia.
Qed.

Lemma range_report_sums (r : Z * Z * string) :
  sum (map rr_total (range_report our_fields expected_fields r))
  = Z.max 0 (range_overlap our_fields expected_fields r)
  /\ sum (map rr_matches (range_report our_fields expected_fields r))
     = range_agreeing our_fields expected_fields r.
Proof.
  unfold range_report.
  destruct (_ >? 0) eqn:E; rewrite Z.gtb_ltb in E; cbn [map sum fold_right rr_total rr_matches].
  - apply Z.ltb_lt in E. split; lia.
  - apply Z.ltb_ge in E. split; [lia|].
    unfold range_agreeing, range_overlap in *. rewrite range_empty by lia.
    reflexivity.
Qed.

Lemma chain_end_ge (s : Z) (rs : list (Z * Z * string)) :
  chained s rs -> s - 1 <= chain_end s rs.
Proof.
  revert s. induction rs as [|r rs IH]; intros s; cbn [chained chain_end]; [lia|].
  intros (_ & Hb & Hrest). apply IH in Hrest. lia.
Qed.

Lemma chained_starts (s : Z) (rs : list (Z * Z * string)) :
  1 <= s -> chained s rs -> Forall (fun r => 1 <= fst (fst r)) rs.
Proof.
  revert s. induction rs as [|r rs IH]; intros s Hs; cbn [chained]; [constructor|].
  intros (Ha & Hb & Hrest). constructor; [lia|].
  apply (IH (snd (fst r) + 1)); [lia | exact Hrest].
Qed.

Lemma chained_sums (s : Z) (rs : list (Z * Z * string)) :
  chained s rs ->
  let n := Z.min (len our_fields) (len expected_fields) in
  sum (map rr_total (flat_map (range_report our_fields expected_fields) rs))
  = Z.max 0 (Z.min (chain_end s rs) n - (s - 1))
  /\ sum (map rr_matches (flat_map (range_report our_fields expected_fields) rs))
     = len (filter (agree our_fields expected_fields)
              (range (s - 1) (Z.min (chain_end s rs) n))).
Proof.
  intros Hch n. revert s Hch.
  induction rs as [|r rs IH]; intros s; cbn [chained chain_end flat_map].
  - intros _. cbn [map sum fold_right]. rewrite range_empty by lia.
    split; [lia | reflexivity].
  - intros (Ha & Hb & Hrest).
    pose proof (chain_end_ge _ _ Hrest) as Hend.
    destruct (IH _ Hrest) as [IHt IHm].
    destruct (range_report_sums r) as [Ht Hm].
    rewrite !map_app, !sum_app, Ht, Hm, IHt, IHm.
    unfold range_overlap, range_agreeing. fold n. rewrite Ha.
    replace (snd (fst r) + 1 - 1) with (snd (fst r)) in * by lia.
    split; [lia|].
    rewrite <- len_app, <- filter_app. f_equal. f_equal.
    destruct (Z_le_gt_dec n (snd (fst r))) as [Hle | Hgt].
    + rewrite (range_empty (snd (fst r))) by lia. rewrite app_nil_r.
      f_equal. lia.
    + rewrite (Z.min_l (snd (fst r)) n) by lia.
      symmetry. apply range_app. lia.
Qed.

Lemma ranges_chained : chained 1 ranges /\ chain_end 1 ranges = 533.
Proof. cbn. repeat split; lia. Qed.

End RangeTable.

Section MainExtras.

Import DetailedComparison.
Import FieldAccuracyAnalysis.

(** X5.  The nine ranges of the table follow one another from field 1 to
    field 533, so the rows of the range analysis together account for every
    compared field up to field 533: their totals add up to
    [min(533, len(our), len(expected))], their matches to the agreeing
    positions among these, and for records of at most 533 compared fields to
    the [matches] of the comparison. *)
Theorem range_rows_account_for_fields
    (our_fields expected_fields : list string) (rtype : string) :
  exists c rows,
    compare_fields our_fields expected_fields rtype = Ok c
    /\ range_analysis ranges our_fields expected_fields = Ok rows
    /\ sum (map rr_total rows)
       = Z.min 533 (Z.min (len our_fields) (len expected_fields))
    /\ sum (map rr_matches rows)
       = len (filter (agree our_fields expected_fields)
                (range 0 (Z.min 533 (Z.min (len our_fields) (len expected_fields)))))
    /\ sum (map rr_matches rows) <= matches c
    /\ (Z.min (len our_fields) (len expected_fields) <= 533 ->
        sum (map rr_total rows) = matches c + len (mismatches c)
        /\ sum (map rr_matches rows) = matches c).
Proof.
  pose proof (len_nonneg our_fields) as Ho.
  pose proof (len_nonneg expected_fields) as He.
  destruct ranges_chained as [Hch Hend].
  eexists. eexists. split; [apply compare_fields_closed_form|].
  split.
  { unfold range_analysis.
    rewrite range_loop by (apply (chained_starts 1); [lia | exact Hch]).
    reflexivity. }
  cbn [app matches mismatches].
  destruct (chained_sums our_fields expected_fields 1 ranges Hch) as [Ht Hm].
  rewrite Hend in Ht, Hm. cbn [Z.sub Z.add Z.opp Z.pos_sub] in Ht, Hm.
  set (n := Z.min (len our_fields) (len expected_fields)) in *.
  assert (0 <= n) as Hn by (subst n; lia).
  split; [rewrite Ht; lia|].
  split; [exact Hm|].
  split.
  { rewrite Hm. rewrite (range_app 0 (Z.min 533 n) n) by lia.
    rewrite filter_app, len_app.
    pose proof (len_nonneg (filter (agree our_fields expected_fields)
                              (range (Z.min 533 n) n))). lia. }
  intros Hsmall. rewrite Ht, Hm. rewrite (Z.min_r 533 n) by lia.
  split; [|reflexivity].
  rewrite len_map. unfold differ. rewrite len_filter_partition, len_range. lia.
Qed.

Lemma find_split {A} (p : A -> bool) (l : list A) (x : A) :
  find p l = Some x ->
  exists before after,
    l = before ++ x :: after
    /\ (forall y, In y before -> p y = false)
    /\ p x = true.
Proof.
  induction l as [|y l IH]; cbn [find]; [discriminate|].
  destruct (p y) eqn:E.
  - intros [= <-]. exists [], l. repeat split; [intros z []| exact E].
  - intros H. destruct (IH H) as (before & after & -> & Hb & Hx).
    exists (y :: before), after. repeat split; [|exact Hx].
    intros z [<- | Hz]; auto.
Qed.

Lemma find_primary_closed_form (our_records : list string) :
  find_primary our_records = Ok (find is_primary our_records).
Proof.
  induction our_records as [|record rest IH]; [reflexivity|].
  cbn [find_primary find]. rewrite parse_record_closed_form. cbn [Py.bind fst].
  unfold is_primary at 1. rewrite Z.geb_leb.
  destruct (3 <=? len (split pipe record)); cbn [andb].
  - destruct (String.eqb _ "P"); [reflexivity | exact IH].
  - exact IH.
Qed.

Lemma match_percentage_some (c : comparison) :
  0 < expected_field_count c ->
  match_percentage c
  = Ok (Some (inject_Z (matches c) / inject_Z (expected_field_count c)
              * inject_Z 100)%Q).
Proof.
  intros H. unfold match_percentage, truediv.
  replace (expected_field_count c >? 0) with true
    by (symmetry; rewrite Z.gtb_ltb; apply Z.ltb_lt; lia).
  replace (expected_field_count c =? 0) with false
    by (symmetry; apply Z.eqb_neq; lia).
  reflexivity.
Qed.

Lemma analyze_primary_record_closed_form (our_primary expected_primary : string) :
  exists c,
    compare_fields (split pipe our_primary) (split pipe expected_primary) "P"
    = Ok c
    /\ analyze_primary_record our_primary expected_primary
       = Ok (c, flat_map (range_report (split pipe our_primary)
                            (split pipe expected_primary)) ranges).
Proof.
  eexists. split; [apply compare_fields_closed_form|].
  unfold analyze_primary_record.
  rewrite !parse_record_closed_form. cbn [Py.bind snd].
  rewrite compare_fields_closed_form. cbn [Py.bind].
  unfold range_analysis.
  rewrite range_loop
    by (apply (chained_starts 1); [lia | apply ranges_chained]).
  reflexivity.
Qed.

(** X6.  [main] never raises.  It stops without an analysis exactly when
    no record of our file has a third field [P]; otherwise it analyses the
    first such record, whatever comes after it, against the expected content,
    and the summary always shows a match percentage, between 0 and 100. *)
Theorem main_analyses_first_primary_record
    (our_records : list string) (expected_content : string) :
  exists out,
    main our_records expected_content = Ok out
    /\ (out = None <-> forall r, In r our_records -> is_primary r = false)
    /\ forall c pct, out = Some (c, pct) ->
         exists before record after,
           our_records = before ++ record :: after
           /\ (forall r, In r before -> is_primary r = false)
           /\ is_primary record = true
           /\ compare_fields (split pipe record) (split pipe expected_content) "P"
              = Ok c
           /\ exists q, pct = Some q /\ (0 <= q <= inject_Z 100)%Q.
Proof.
  assert (main our_records expected_content
          = match find is_primary our_records with
            | None => Ok None
            | Some record =>
                if String.eqb record EmptyString then Ok None
                else
                  res <- analyze_primary_record record expected_content ;;
                  pct <- match_percentage (fst res) ;;
                  Ok (Some (fst res, pct))
            end) as Hmain.
  { unfold main. destruct our_records as [|r rs]; [reflexivity|].
    now rewrite find_primary_closed_form. }
  rewrite Hmain. clear Hmain.
  destruct (find is_primary our_records) as [record|] eqn:F.
  - destruct (find_split _ _ _ F) as (before & after & Hl & Hb & Hp).
    assert (String.eqb record EmptyString = false) as Hne.
    { apply String.eqb_neq. intros ->. cbv in Hp. discriminate. }
    rewrite Hne.
    destruct (analyze_primary_record_closed_form record expected_content)
      as (c & Hc & Ha).
    rewrite Ha. cbn [Py.bind fst].
    pose proof Hc as Hc'. rewrite compare_fields_closed_form in Hc'.
    injection Hc' as Hc'.
    assert (0 < len (split pipe expected_content)) as Hpos.
    { unfold len. rewrite length_split. lia. }
    assert (expected_field_count c = len (split pipe expected_content)) as Hcount
      by (now rewrite <- Hc').
    rewrite match_percentage_some by lia. cbn [Py.bind].
    eexists. split; [reflexivity|].
    split.
    { split; [discriminate|]. intros Hnone.
      rewrite Hl in Hnone. rewrite Hnone in Hp; [discriminate|].
      apply in_or_app. right. now left. }
    intros c0 pct [= <- <-].
    exists before, record, after.
    split; [exact Hl|]. split; [exact Hb|]. split; [exact Hp|].
    split; [exact Hc|].
    eexists. split; [reflexivity|].
    apply percent_bounds; [|lia].
    rewrite Hcount. rewrite <- Hc'. cbn [matches].
    pose proof (len_filter_le
                  (agree (split pipe record) (split pipe expected_content))
                  (range 0 (Z.min (len (split pipe record))
                              (len (split pipe expected_content))))) as Hle.
    rewrite len_range in Hle. lia.
  - exists None. split; [reflexivity|].
    split; [|discriminate].
    split; [|reflexivity]. intros _ r Hr.
    now apply (find_none _ _ F).
Qed.

End MainExtras.

(** ** shift_analysis.py: the first difference and its context *)

Section ShiftExtras.

Import ShiftAnalysis.

Lemma range_cons (a b : Z) : a < b -> range a b = a :: range (a + 1) b.
Proof.
  intros H. rewrite (range_app a (a + 1) b) by lia.
  unfold range at 1. replace (Z.to_nat (a + 1 - a)) with 1%nat by lia.
  cbn. now rewrite Z.add_0_r.
Qed.

(** The first element of a range that satisfies a test is the least one. *)
Lemma find_range_first (p : Z -> bool) (x : Z) (k : nat) :
  forall a b,
    Z.to_nat (b - a) = k ->
    find p (range a b) = Some x ->
    a <= x < b /\ p x = true /\ forall i, a <= i < x -> p i = false.
Proof.
  induction k as [|k IH]; intros a b Hk Hfind.
  - rewrite range_empty in Hfind by lia. discriminate.
  - rewrite range_cons in Hfind by lia. cbn [find] in Hfind.
    destruct (p a) eqn:E.
    + injection Hfind as <-. repeat split; [lia | lia | exact E | intros; lia].
    + apply IH in Hfind; [|lia]. destruct Hfind as (Hx & Hp & Hlt).
      repeat split; [lia | lia | exact Hp |].
      intros i Hi. destruct (Z.eq_dec i a) as [-> | Hne]; [exact E|].
      apply Hlt. lia.
Qed.

Lemma find_range_none (p : Z -> bool) (a b : Z) :
  find p (range a b) = None <-> forall i, a <= i < b -> p i = false.
Proof.
  split.
  - intros H i Hi. apply (find_none _ _ H). now apply in_range.
  - intros H. destruct (find p (range a b)) as [x|] eqn:F; [|reflexivity].
    apply find_some in F as [Hx Hp]. apply in_range in Hx.
    rewrite (H x Hx) in Hp. discriminate.
Qed.

Lemma differ_true_iff (xs ys : list string) (i : Z) :
  differ xs ys i = true <-> field_at xs i <> field_at ys i.
Proof.
  unfold differ, agree. rewrite negb_true_iff. apply String.eqb_neq.
Qed.

(** X7.  [find_shift_point] never raises, and the first difference it
    reports is the least position (1-based) at which both records have a
    field and the fields differ; when it reports none, the records agree on
    every position both have, and nothing is probed. *)
Theorem find_shift_point_first_difference
    (generated_record expected_record : string) :
  exists first_diff rows,
    find_shift_point generated_record expected_record = Ok (first_diff, rows)
    /\ match first_diff with
       | Some p =>
           1 <= p <= Z.min (len (split pipe generated_record))
                       (len (split pipe expected_record))
           /\ field_at (split pipe generated_record) (p - 1)
              <> field_at (split pipe expected_record) (p - 1)
           /\ forall i, 0 <= i < p - 1 ->
                field_at (split pipe generated_record) i
                = field_at (split pipe expected_record) i
       | None =>
           rows = []
           /\ forall i,
                0 <= i < Z.min (len (split pipe generated_record))
                           (len (split pipe expected_record)) ->
                field_at (split pipe generated_record) i
                = field_at (split pipe expected_record) i
       end.
Proof.
  pose proof (find_shift_point_total generated_record expected_record) as H.
  cbv zeta in H. rewrite H. clear H.
  destruct (find _ _) as [d|] eqn:F.
  - eexists. eexists. split; [reflexivity|].
    apply (find_range_first _ _ _ _ _ eq_refl) in F as (Hd & Hp & Hlt).
    replace (d + 1 - 1) with d by lia.
    split; [lia|]. split; [now apply differ_true_iff|].
    intros i Hi. apply differ_false_iff. apply Hlt. lia.
  - eexists. eexists. split; [reflexivity|]. split; [reflexivity|].
    intros i Hi. apply differ_false_iff.
    rewrite find_range_none in F. now apply F.
Qed.

(** X8.  [find_shift_point] reports that all fields match exactly when the
    fields of one record are the beginning of the fields of the other: a
    record that only lacks, or only adds, fields at its end is reported as a
    perfect match. *)
Theorem find_shift_point_ignores_trailing_fields
    (generated_record expected_record : string) :
  exists first_diff rows,
    find_shift_point generated_record expected_record = Ok (first_diff, rows)
    /\ (first_diff = None
        <-> firstn (List.length (split pipe expected_record))
              (split pipe generated_record)
            = split pipe expected_record
            \/ firstn (List.length (split pipe generated_record))
                 (split pipe expected_record)
               = split pipe generated_record).
Proof.
  pose proof (find_shift_point_total generated_record expected_record) as H.
  cbv zeta in H. rewrite H. clear H.
  set (g := split pipe generated_record). set (e := split pipe expected_record).
  assert (find (differ g e) (range 0 (Z.min (len g) (len e))) = None
          <-> firstn (List.length e) g = e \/ firstn (List.length g) e = g) as Hiff.
  { rewrite find_range_none, !prefix_iff. split.
    - intros Hag. destruct (Z_le_gt_dec (len e) (len g)).
      + left. split; [lia|]. intros i Hi. apply differ_false_iff, Hag. lia.
      + right. split; [lia|]. intros i Hi. symmetry.
        apply differ_false_iff, Hag. lia.
    - intros [[Hle Hag] | [Hle Hag]] i Hi; apply differ_false_iff.
      + apply Hag. lia.
      + symmetry. apply Hag. lia. }
  destruct (find _ _) as [d|] eqn:F.
  - eexists. eexists. split; [reflexivity|].
    split; [discriminate|]. intros Hp. apply Hiff in Hp. discriminate.
  - eexists. eexists. split; [reflexivity|].
    split; [intros _; now apply Hiff | reflexivity].
Qed.

Lemma context_loop (generated_fields expected_fields : list string)
    (indices : list Z) :
  (forall i, In i indices -> 0 <= i < len generated_fields) ->
  forall rows,
    for_each indices rows (context_body generated_fields expected_fields)
    = Ok (rows ++ map (context_row_at generated_fields expected_fields) indices).
Proof.
  induction indices as [|i rest IH]; intros Hin rows.
  - cbn. now rewrite app_nil_r.
  - pose proof (Hin i (or_introl eq_refl)) as Hi.
    cbn [for_each map]. unfold context_body at 1.
    replace (i <? len generated_fields) with true
      by (symmetry; apply Z.ltb_lt; lia).
    rewrite (index_in_bounds EmptyString) by lia. cbn [Py.bind].
    assert ((if i <? len expected_fields then index expected_fields i
             else Ok "MISSING"%string)
            = Ok (expected_or_missing expected_fields i)) as ->.
    { unfold expected_or_missing. destruct (i <? len expected_fields) eqn:E;
        [|reflexivity].
      apply Z.ltb_lt in E. apply index_in_bounds. lia. }
    cbn [Py.bind]. rewrite IH by (intros; apply Hin; now right).
    rewrite <- app_assoc. reflexivity.
Qed.

(** X9.  When [find_shift_point] reports a first difference, the context
    table is printed without raising: it has a line for each field from
    [max(0, first_diff - 5) + 1] to [min(len(generated), first_diff + 10)], at
    most 15 lines, among them the line of the first difference, marked as a
    difference.  The generated column always shows a field of the generated
    record; the expected column shows [MISSING] behind the last expected
    field. *)
Theorem context_table_shows_first_difference
    (generated_record expected_record : string) (first_diff : Z)
    (probe_rows : list shift_row)
    (Hrun : find_shift_point generated_record expected_record
            = Ok (Some first_diff, probe_rows)) :
  exists rows,
    context_table (split pipe generated_record) (split pipe expected_record)
      first_diff = Ok rows
    /\ map cr_field rows
       = range (Z.max 0 (first_diff - 5) + 1)
           (Z.min (len (split pipe generated_record)) (first_diff + 10) + 1)
    /\ 1 <= len rows <= 15
    /\ In (ContextRow first_diff
             (field_at (split pipe generated_record) (first_diff - 1))
             (field_at (split pipe expected_record) (first_diff - 1))
             true) rows
    /\ forall row, In row rows ->
         cr_generated row
         = field_at (split pipe generated_record) (cr_field row - 1)
         /\ cr_expected row
            = expected_or_missing (split pipe expected_record) (cr_field row - 1)
         /\ cr_diff row
            = negb (String.eqb (cr_generated row) (cr_expected row)).
Proof.
  pose proof (find_shift_point_total generated_record expected_record) as H.
  cbv zeta in H. rewrite H in Hrun. clear H.
  set (g := split pipe generated_record) in *.
  set (e := split pipe expected_record) in *.
  destruct (find _ _) as [d|] eqn:F; [|discriminate].
  injection Hrun as <- _.
  apply (find_range_first _ _ _ _ _ eq_refl) in F as (Hd & Hp & _).
  apply differ_true_iff in Hp.
  unfold context_table.
  rewrite context_loop by (intros i Hi; apply in_range in Hi; lia).
  cbn [app]. eexists. split; [reflexivity|].
  set (start := Z.max 0 (d + 1 - 5)).
  set (stop := Z.min (len g) (d + 1 + 10)).
  split.
  { rewrite map_map. cbn [cr_field context_row_at].
    unfold range. rewrite map_map.
    replace (stop + 1 - (start + 1)) with (stop - start) by lia.
    apply map_ext. intros k. lia. }
  split.
  { rewrite len_map, len_range. subst start stop. lia. }
  split.
  { apply in_map_iff. exists d. split.
    - unfold context_row_at, expected_or_missing.
      replace (d <? len e) with true by (symmetry; apply Z.ltb_lt; lia).
      replace (d + 1 - 1) with d by lia.
      f_equal. apply negb_true_iff. now apply String.eqb_neq.
    - apply in_range. subst start stop. lia. }
  intros row Hrow. apply in_map_iff in Hrow as (i & <- & _).
  cbn [cr_generated cr_expected cr_diff cr_field context_row_at].
  replace (i + 1 - 1) with i by lia. repeat split.
Qed.

(** The records of the scenario: the first difference is at field 2. *)
Lemma context_table_scenario :
  find_shift_point "1|3|4" "1|2|3|4" = Ok (Some 2, [ShiftRow 2 3 1])
  /\ exists rows,
       context_table (split pipe "1|3|4") (split pipe "1|2|3|4") 2 = Ok rows
       /\ map cr_field rows = [1; 2; 3].
Proof.
  split; [reflexivity|].
  destruct (context_table_shows_first_difference
              "1|3|4" "1|2|3|4" 2 [ShiftRow 2 3 1] eq_refl)
    as (rows & Hrun & Hfields & _).
  exists rows. split; [exact Hrun | exact Hfields].
Defined.

End ShiftExtras.

(** ** field_accuracy_analysis.py: the report as a whole *)

Section BinaryExtras.

Import FieldAccuracyAnalysis.

Variables actual_data expected_data : list byte.

Lemma analyze_binary_accuracy_closed_form :
  let rows := flat_map (window_report actual_data expected_data) key_fields in
  let count := len actual_data / expected_record_size in
  let size := if count >? 0 then len actual_data / count else 0 in
  analyze_binary_accuracy actual_data expected_data
  = Ok (Report (len actual_data =? len expected_data) rows
          (sum (map fr_field_length rows)) (sum (map fr_matches rows))
          (percent (sum (map fr_matches rows)) (sum (map fr_field_length rows)))
          count size (count =? expected_records) (size =? expected_record_size)).
Proof.
  cbv zeta. unfold analyze_binary_accuracy, window_analysis.
  rewrite window_loop by apply key_fields_nonneg.
  cbn [Py.bind total_analyzed total_matching printed app].
  rewrite !Z.add_0_l.
  rewrite percent_or_zero_closed_form
    by (apply sum_nonneg, window_report_length_nonneg).
  cbn [Py.bind]. rewrite record_structure_closed_form. reflexivity.
Qed.

Lemma window_length_le_width (w : Z * Z * string) :
  0 <= window_length actual_data expected_data w <= window_width w.
Proof. unfold window_length, window_width. lia. Qed.

Lemma report_sums (windows : list (Z * Z * string)) :
  0 <= sum (map fr_matches
              (flat_map (window_report actual_data expected_data) windows))
    <= sum (map fr_field_length
              (flat_map (window_report actual_data expected_data) windows))
  /\ sum (map fr_field_length
            (flat_map (window_report actual_data expected_data) windows))
     <= sum (map window_width windows).
Proof.
  induction windows as [|w ws IH]; [cbn; lia|].
  change (sum (map window_width (w :: ws)))
    with (window_width w + sum (map window_width ws)).
  cbn [flat_map]. rewrite !map_app, !sum_app.
  assert (0 <= sum (map fr_matches (window_report actual_data expected_data w))
            <= sum (map fr_field_length
                      (window_report actual_data expected_data w))
          /\ sum (map fr_field_length
                    (window_report actual_data expected_data w))
             <= window_width w) as Hw.
  { pose proof (window_matches_le actual_data expected_data w) as Hm.
    pose proof (window_length_le_width w) as Hl.
    unfold window_report.
    destruct (window_in_bounds _ _ w);
      cbn [map sum fold_right fr_matches fr_field_length]; lia. }
  lia.
Qed.

(** Windows that lie inside both buffers are compared in full. *)
Lemma report_sums_inside (windows : list (Z * Z * string)) :
  Forall (fun w => 0 <= fst (fst w) < snd (fst w)
                   /\ snd (fst w) <= len actual_data
                   /\ snd (fst w) <= len expected_data) windows ->
  sum (map fr_field_length
         (flat_map (window_report actual_data expected_data) windows))
  = sum (map window_width windows).
Proof.
  induction 1 as [|w ws (Hs & Ha & He) Hws IH]; [reflexivity|].
  change (sum (map window_width (w :: ws)))
    with (window_width w + sum (map window_width ws)).
  cbn [flat_map]. rewrite map_app, sum_app, IH. f_equal.
  unfold window_report, window_in_bounds.
  replace (fst (fst w) <? len actual_data) with true
    by (symmetry; apply Z.ltb_lt; lia).
  replace (fst (fst w) <? len expected_data) with true
    by (symmetry; apply Z.ltb_lt; lia).
  cbn [andb map sum fold_right fr_field_length].
  unfold window_length, window_width. lia.
Qed.

End BinaryExtras.

Section BinaryExtrasClaims.

Import FieldAccuracyAnalysis.

(** X10.  [analyze_binary_accuracy] never raises.  Its overall accuracy
    lies between 0 and 100 and rests on the key windows alone: never more
    than 69 bytes are compared, whatever the size of the buffers, and exactly
    69 as soon as both buffers reach offset 1963. *)
Theorem overall_accuracy_rests_on_69_bytes
    (actual_data expected_data : list byte) :
  exists r,
    analyze_binary_accuracy actual_data expected_data = Ok r
    /\ 0 <= rp_total_matching r <= rp_total_analyzed r
    /\ rp_total_analyzed r <= 69
    /\ (0 <= rp_overall_accuracy r <= inject_Z 100)%Q
    /\ (1963 <= len actual_data -> 1963 <= len expected_data ->
        rp_total_analyzed r = 69).
Proof.
  eexists. split; [apply analyze_binary_accuracy_closed_form|].
  cbn [rp_total_matching rp_total_analyzed rp_overall_accuracy].
  destruct (report_sums actual_data expected_data key_fields) as [Hm Hl].
  change (sum (map window_width key_fields)) with 69 in Hl.
  split; [exact Hm|]. split; [exact Hl|].
  split; [now apply percent_range|].
  intros Ha He. rewrite report_sums_inside; [reflexivity|].
  unfold key_fields. repeat constructor; cbn [fst snd]; lia.
Qed.

(** X11.  The record count is marked as right for every actual buffer of
    10000 to 11999 bytes, and count and record size are both marked as right
    (the record structure is called a perfect match) exactly for the buffers
    of 10000 to 10004 bytes: up to four bytes too many go unnoticed. *)
Theorem record_structure_flags
    (actual_data expected_data : list byte) :
  exists r,
    analyze_binary_accuracy actual_data expected_data = Ok r
    /\ (rp_records_ok r = true <-> 10000 <= len actual_data < 12000)
    /\ (rp_records_ok r = true /\ rp_record_size_ok r = true
        <-> 10000 <= len actual_data <= 10004).
Proof.
  eexists. split; [apply analyze_binary_accuracy_closed_form|].
  cbn [rp_records_ok rp_record_size_ok].
  unfold expected_records, expected_record_size.
  pose proof (len_nonneg actual_data) as Hlen.
  set (n := len actual_data) in *.
  assert (n / 2000 = 5 <-> 10000 <= n < 12000) as Hcount.
  { split; intros H.
    - pose proof (Z.mul_div_le n 2000 ltac:(lia)).
      pose proof (Z.mul_succ_div_gt n 2000 ltac:(lia)). lia.
    - symmetry. apply (Z.div_unique n 2000 5 (n - 10000)); lia. }
  rewrite Z.eqb_eq. split; [exact Hcount|].
  split.
  - intros [Hc Hs]. rewrite Hc in Hs. cbn [Z.gtb Z.compare] in Hs.
    apply Z.eqb_eq in Hs. apply Hcount in Hc.
    pose proof (Z.mul_div_le n 5 ltac:(lia)).
    pose proof (Z.mul_succ_div_gt n 5 ltac:(lia)). lia.
  - intros H. assert (n / 2000 = 5) as Hc by (apply Hcount; lia).
    split; [exact Hc|]. rewrite Hc. cbn [Z.gtb Z.compare].
    apply Z.eqb_eq. symmetry. apply (Z.div_unique n 5 2000 (n - 10000)); lia.
Qed.

Lemma same_byte_refl (data : list byte) (i : Z) : same_byte data data i = true.
Proof. unfold same_byte. now apply byte_dec_lb. Qed.

Lemma window_matches_same (data : list byte) (w : Z * Z * string) :
  window_matches data data w = window_length data data w.
Proof.
  unfold window_matches.
  rewrite filter_all by (intros; apply same_byte_refl).
  rewrite len_range. unfold window_length. lia.
Qed.

(** X12.  When the two buffers are the same, every compared byte matches.
    If the buffer is not empty the overall accuracy is 100 and the assessment
    is that the target is achieved; for two empty buffers nothing is compared,
    the overall accuracy is 0 and the assessment is that refinement is
    needed. *)
Theorem identical_buffers_assessment (data : list byte) :
  exists r,
    analyze_binary_accuracy data data = Ok r
    /\ rp_size_match r = true
    /\ rp_total_matching r = rp_total_analyzed r
    /\ (forall row, In row (rp_rows r) -> fr_matches row = fr_field_length row)
    /\ (data <> [] ->
        (rp_overall_accuracy r == inject_Z 100)%Q
        /\ assess (rp_overall_accuracy r) = TargetAchieved)
    /\ (data = [] ->
        rp_rows r = []
        /\ rp_overall_accuracy r = 0%Q
        /\ assess (rp_overall_accuracy r) = NeedsRefinement).
Proof.
  eexists. split; [apply analyze_binary_accuracy_closed_form|].
  cbn [rp_size_match rp_total_matching rp_total_analyzed rp_rows
         rp_overall_accuracy].
  set (rows := flat_map (window_report data data) key_fields).
  assert (forall row, In row rows -> fr_matches row = fr_field_length row) as Hrows.
  { intros row Hrow. apply in_flat_map in Hrow as (w & _ & Hrow).
    unfold window_report in Hrow.
    destruct (window_in_bounds _ _ w); [|destruct Hrow].
    destruct Hrow as [<- | []]. cbn. apply window_matches_same. }
  assert (sum (map fr_matches rows) = sum (map fr_field_length rows)) as Hsum.
  { f_equal. apply map_ext_in. exact Hrows. }
  split; [apply Z.eqb_refl|]. split; [exact Hsum|]. split; [exact Hrows|].
  rewrite Hsum. split.
  - intros Hne.
    assert (0 < sum (map fr_field_length rows)) as Hpos.
    { subst rows. unfold key_fields. cbn [flat_map].
      rewrite map_app, sum_app.
      match goal with
      | |- 0 < _ + sum (map fr_field_length ?rest) =>
          assert (0 <= sum (map fr_field_length rest)) as Hrest
      end.
      { apply sum_nonneg.
        apply (window_report_length_nonneg data data
                 [ (6, 12, "Binary Control Pattern"%string);
                   (12, 23, "Account Number Field"%string);
                   (23, 32, "Packed Decimal Pattern"%string);
                   (35, 51, "Name Sample Message"%string);
                   (600, 608, "Financial Field 1 (PrincipalBalance)"%string);
                   (620, 628, "Financial Field 2 (PaymentAmount)"%string);
                   (1950, 1955, "TranKey Field"%string);
                   (1960, 1963, "TranCount Field"%string) ]). }
      assert (0 < len data) as Hlen.
      { destruct data; [congruence|]. unfold len. cbn [List.length]. lia. }
      unfold window_report at 1, window_in_bounds. cbn [fst snd].
      replace (0 <? len data) with true by (symmetry; apply Z.ltb_lt; lia).
      cbn [andb map sum fold_right fr_field_length].
      unfold window_length. cbn [fst snd]. lia. }
    set (total := sum (map fr_field_length rows)) in *.
    assert ((percent total total == inject_Z 100)%Q) as Hfull.
    { unfold percent.
      replace (total =? 0) with false by (symmetry; apply Z.eqb_neq; lia).
      apply percent_full_iff; lia. }
    split; [exact Hfull|].
    unfold assess.
    replace (Qle_bool (inject_Z 95) (percent total total)) with true;
      [reflexivity|].
    symmetry. apply Qle_bool_iff. rewrite Hfull. discriminate.
  - intros ->. repeat split.
Qed.

End BinaryExtrasClaims.

(** ** field_analysis.py: the differences of two records *)

Section FieldAnalysisExtras.

Import DetailedComparison.
Import FieldAnalysis.

Lemma padded_read (fields : list string) (i : Z) :
  0 <= i ->
  (if i <? len fields then index fields i else Ok "MISSING"%string)
  = Ok (padded fields i).
Proof.
  intros Hi. unfold padded. destruct (i <? len fields) eqn:E; [|reflexivity].
  apply Z.ltb_lt in E. apply index_in_bounds. lia.
Qed.

Lemma difference_loop (generated_fields expected_fields : list string)
    (indices : list Z) :
  (forall i, In i indices -> 0 <= i) ->
  forall ds,
    for_each indices ds (difference_body generated_fields expected_fields)
    = Ok (ds ++ map (difference_at generated_fields expected_fields)
                  (filter (padded_differ generated_fields expected_fields)
                     indices)).
Proof.
  induction indices as [|i rest IH]; intros Hin ds.
  - cbn. now rewrite app_nil_r.
  - pose proof (Hin i (or_introl eq_refl)) as Hi.
    cbn [for_each filter]. unfold difference_body at 1.
    rewrite !padded_read by exact Hi. cbn [Py.bind].
    fold (padded_differ generated_fields expected_fields i).
    destruct (padded_differ generated_fields expected_fields i); cbn [Py.bind];
      rewrite IH by (intros; apply Hin; now right); [|reflexivity].
    cbn [map]. unfold difference_at at 2. now rewrite <- app_assoc.
Qed.

Lemma record_differences_closed_form
    (generated_fields expected_fields : list string) :
  record_differences generated_fields expected_fields
  = Ok (map (difference_at generated_fields expected_fields)
          (filter (padded_differ generated_fields expected_fields)
             (range 0 (Z.max (len generated_fields) (len expected_fields))))).
Proof.
  unfold record_differences.
  now rewrite difference_loop by (intros i Hi; apply in_range in Hi; lia).
Qed.

Lemma padded_inside (fields : list string) (i : Z) :
  0 <= i < len fields -> padded fields i = field_at fields i.
Proof.
  intros Hi. unfold padded.
  now replace (i <? len fields) with true by (symmetry; apply Z.ltb_lt; lia).
Qed.

Lemma padded_outside (fields : list string) (i : Z) :
  len fields <= i -> padded fields i = "MISSING"%string.
Proof.
  intros Hi. unfold padded.
  now replace (i <? len fields) with false by (symmetry; apply Z.ltb_ge; lia).
Qed.

Lemma field_at_in (fields : list string) (i : Z) :
  0 <= i < len fields -> In (field_at fields i) fields.
Proof.
  intros Hi. unfold field_at, item. apply nth_In. unfold len in Hi. lia.
Qed.

(** X13.  When no field is the text [MISSING], the differences found by
    [field_analysis.py] are at the positions of the mismatches, missing and
    extra entries found by [compare_fields] of [detailed_comparison.py], in
    this order, and there is no difference exactly when the two field
    sequences are equal. *)
Theorem record_differences_match_comparison
    (generated_fields expected_fields : list string) (rtype : string)
    (Hgen : ~ In "MISSING"%string generated_fields)
    (Hexp : ~ In "MISSING"%string expected_fields) :
  exists ds c,
    record_differences generated_fields expected_fields = Ok ds
    /\ compare_fields generated_fields expected_fields rtype = Ok c
    /\ map df_field ds
       = map mm_field_index (mismatches c)
         ++ map mf_field_index (missing_fields c)
         ++ map ef_field_index (extra_fields c)
    /\ len ds
       = len (mismatches c) + len (missing_fields c) + len (extra_fields c)
    /\ (ds = [] <-> generated_fields = expected_fields).
Proof.
  pose proof (len_nonneg generated_fields) as Hg.
  pose proof (len_nonneg expected_fields) as He.
  eexists. eexists.
  split; [apply record_differences_closed_form|].
  split; [apply compare_fields_closed_form|].
  cbn [mismatches missing_fields extra_fields].
  set (n := Z.min (len generated_fields) (len expected_fields)).
  set (mx := Z.max (len generated_fields) (len expected_fields)).
  assert (filter (padded_differ generated_fields expected_fields) (range 0 mx)
          = filter (differ generated_fields expected_fields) (range 0 n)
            ++ range n mx) as Hfilter.
  { rewrite (range_app 0 n mx) by (subst n mx; lia).
    rewrite filter_app. f_equal.
    - apply filter_ext_in. intros i Hi. apply in_range in Hi.
      unfold padded_differ, differ, agree.
      rewrite !padded_inside by (subst n; lia). reflexivity.
    - apply filter_all. intros i Hi. apply in_range in Hi.
      unfold padded_differ. apply negb_true_iff, String.eqb_neq.
      destruct (Z_le_gt_dec (len expected_fields) (len generated_fields)).
      + rewrite (padded_outside expected_fields) by (subst n; lia).
        rewrite padded_inside by (subst n mx; lia).
        intros Heq. apply Hgen. rewrite <- Heq.
        apply field_at_in. subst n mx. lia.
      + rewrite (padded_outside generated_fields) by (subst n; lia).
        rewrite padded_inside by (subst n mx; lia).
        intros Heq. apply Hexp. rewrite Heq.
        apply field_at_in. subst n mx. lia. }
  assert (range n mx
          = range (len generated_fields) (len expected_fields)
            ++ range (len expected_fields) (len generated_fields)) as Htail.
  { destruct (Z_le_gt_dec (len expected_fields) (len generated_fields)).
    - rewrite (range_empty (len generated_fields)) by lia. cbn [app].
      f_equal; subst n mx; lia.
    - rewrite (range_empty (len expected_fields)) by lia. rewrite app_nil_r.
      f_equal; subst n mx; lia. }
  assert (map df_field
            (map (difference_at generated_fields expected_fields)
               (filter (padded_differ generated_fields expected_fields)
                  (range 0 mx)))
          = map mm_field_index
              (map (mismatch_at generated_fields expected_fields)
                 (filter (differ generated_fields expected_fields) (range 0 n)))
            ++ map mf_field_index
                 (map (missing_at expected_fields)
                    (range (len generated_fields) (len expected_fields)))
            ++ map ef_field_index
                 (map (extra_at generated_fields)
                    (range (len expected_fields) (len generated_fields))))
    as Hpos.
  { rewrite Hfilter, Htail, !map_map, !map_app. reflexivity. }
  split; [exact Hpos|].
  split.
  { apply (f_equal (@len Z)) in Hpos.
    rewrite !len_app, !len_map in Hpos. rewrite !len_map. lia. }
  rewrite map_nil_iff, Hfilter. split.
  - intros Hnil. apply app_eq_nil in Hnil as [Hmm Htl].
    rewrite Htail in Htl. apply app_eq_nil in Htl as [Hmiss Hextra].
    apply range_nil_iff in Hmiss. apply range_nil_iff in Hextra.
    apply fields_ext; [lia|].
    intros i Hi. apply differ_false_iff.
    rewrite filter_nil_iff in Hmm. apply Hmm. apply in_range. subst n. lia.
  - intros Heq. rewrite <- Heq.
    assert (filter (differ generated_fields generated_fields) (range 0 n) = [])
      as -> by (apply filter_nil_iff; intros i _; now apply differ_false_iff).
    rewrite Htail. rewrite <- Heq. now rewrite range_empty by lia.
Qed.

(** Two records without the text [MISSING]. *)
Lemma record_differences_match_comparison_example :
  ~ In "MISSING"%string ["1"; "2"]%string
  /\ ~ In "MISSING"%string ["1"; "X"; "3"]%string
  /\ exists ds,
       record_differences ["1"; "2"]%string ["1"; "X"; "3"]%string = Ok ds
       /\ len ds = 2.
Proof.
  assert (~ In "MISSING"%string ["1"; "2"]%string) as H1
    by (cbn; intros [H | [H | []]]; discriminate).
  assert (~ In "MISSING"%string ["1"; "X"; "3"]%string) as H2
    by (cbn; intros [H | [H | [H | []]]]; discriminate).
  split; [exact H1|]. split; [exact H2|].
  destruct (record_differences_match_comparison
              ["1"; "2"]%string ["1"; "X"; "3"]%string "P"%string H1 H2)
    as (ds & c & Hds & Hc & _ & Hlen & _).
  exists ds. split; [exact Hds|].
  assert (compare_fields ["1"; "2"]%string ["1"; "X"; "3"]%string "P"%string
          = Ok (Comparison "P"%string 2 3 1
                  [Mismatch 2 "2"%string "X"%string]
                  [Missing 3 "3"%string] [])) as Hval by reflexivity.
  rewrite Hval in Hc. injection Hc as <-. rewrite Hlen. reflexivity.
Defined.

(** X14.  A last field whose text is [MISSING] is not told apart from a
    field that is absent: a record and the same record with that field added
    show no difference in [field_analysis.py], in either direction, while
    [compare_fields] records the field as an extra entry. *)
Theorem record_differences_blind_to_missing_text
    (fields : list string) (rtype : string) :
  exists c,
    record_differences (fields ++ ["MISSING"%string]) fields = Ok []
    /\ record_differences fields (fields ++ ["MISSING"%string]) = Ok []
    /\ compare_fields (fields ++ ["MISSING"%string]) fields rtype = Ok c
    /\ extra_fields c = [Extra (len fields + 1) "MISSING"%string].
Proof.
  pose proof (len_nonneg fields) as Hlen.
  assert (forall i, 0 <= i ->
            padded (fields ++ ["MISSING"%string]) i = padded fields i) as Hpad.
  { intros i Hi. destruct (Z_lt_ge_dec i (len fields)) as [Hlt | Hge].
    - rewrite !padded_inside by (rewrite ?len_app; unfold len in *; cbn; lia).
      unfold field_at, item. apply app_nth1. unfold len in Hlt. lia.
    - rewrite (padded_outside fields) by lia.
      destruct (Z.eq_dec i (len fields)) as [-> | Hne].
      + rewrite padded_inside
          by (rewrite len_app; unfold len; cbn [List.length]; lia).
        unfold field_at, item, len. rewrite Nat2Z.id.
        now rewrite nth_middle.
      + apply padded_outside. rewrite len_app. unfold len in *. cbn. lia. }
  eexists. split; [|split; [|split; [apply compare_fields_closed_form|]]].
  - rewrite record_differences_closed_form.
    replace (filter _ _) with (@nil Z); [reflexivity|].
    symmetry. apply filter_nil_iff. intros i Hi. apply in_range in Hi.
    unfold padded_differ. rewrite Hpad by lia.
    now rewrite String.eqb_refl.
  - rewrite record_differences_closed_form.
    replace (filter _ _) with (@nil Z); [reflexivity|].
    symmetry. apply filter_nil_iff. intros i Hi. apply in_range in Hi.
    unfold padded_differ. rewrite Hpad by lia.
    now rewrite String.eqb_refl.
  - cbn [extra_fields]. rewrite len_app.
    change (len ["MISSING"%string]) with 1.
    rewrite range_cons by lia. rewrite range_empty by lia. cbn [map].
    unfold extra_at. f_equal.
    unfold field_at, item, len. rewrite Nat2Z.id. now rewrite nth_middle.
Qed.

End FieldAnalysisExtras.

(** ** specific_field_analysis.py: the search for the value N *)

Section NSearch.

Import SpecificFieldAnalysis.

Lemma holds_n_closed_form (fields : list string) (i : Z) :
  0 <= i -> holds_n fields i = Ok (is_n fields i).
Proof.
  intros Hi. unfold holds_n, is_n.
  destruct (i <? len fields) eqn:E; [|reflexivity].
  apply Z.ltb_lt in E. rewrite (index_in_bounds EmptyString) by lia.
  reflexivity.
Qed.

Lemma n_search_loop (generated_fields expected_fields : list string)
    (indices : list Z) :
  (forall i, In i indices -> 0 <= i) ->
  forall printed,
    for_each indices printed (n_search_body generated_fields expected_fields)
    = Ok (printed
            ++ flat_map (n_messages_at generated_fields expected_fields) indices).
Proof.
  induction indices as [|i rest IH]; intros Hin printed.
  - cbn. now rewrite app_nil_r.
  - pose proof (Hin i (or_introl eq_refl)) as Hi.
    cbn [for_each flat_map]. unfold n_search_body at 1.
    rewrite !holds_n_closed_form by exact Hi. cbn [Py.bind].
    rewrite IH by (intros; apply Hin; now right).
    unfold n_messages_at at 2.
    destruct (is_n expected_fields i), (is_n generated_fields i);
      cbn [app]; rewrite <- ?app_assoc; cbn [app]; reflexivity.
Qed.

Lemma is_n_true_iff (fields : list string) (i : Z) :
  is_n fields i = true <-> i < len fields /\ field_at fields i = "N"%string.
Proof.
  unfold is_n. now rewrite andb_true_iff, Z.ltb_lt, String.eqb_eq.
Qed.

(** X15.  The search for the value [N] never raises, however short the
    two records are: it reports a field of the expected (generated) record
    exactly when the field is one of the fields 121 to 140, exists, and is
    [N]; an [N] at any other position is never reported. *)
Theorem n_search_reports
    (generated_fields expected_fields : list string) :
  exists out,
    n_search generated_fields expected_fields = Ok out
    /\ (forall k, In (ExpectedN k) out
                  <-> 121 <= k <= 140 /\ k <= len expected_fields
                      /\ field_at expected_fields (k - 1) = "N"%string)
    /\ (forall k, In (GeneratedN k) out
                  <-> 121 <= k <= 140 /\ k <= len generated_fields
                      /\ field_at generated_fields (k - 1) = "N"%string).
Proof.
  eexists. split.
  { unfold n_search.
    now rewrite n_search_loop by (intros i Hi; apply in_range in Hi; lia). }
  cbn [app]. split; intros k; rewrite in_flat_map; split.
  - intros (i & Hi & Hin). apply in_range in Hi. unfold n_messages_at in Hin.
    apply in_app_or in Hin as [Hin | Hin].
    + destruct (is_n expected_fields i) eqn:E; [|destruct Hin].
      destruct Hin as [[= <-] | []]. apply is_n_true_iff in E as [Hlt Hn].
      replace (i + 1 - 1) with i by lia. repeat split; try lia. exact Hn.
    + destruct (is_n generated_fields i); [|destruct Hin].
      destruct Hin as [Heq | []]. discriminate.
  - intros (Hk & Hlen & Hn). exists (k - 1). split; [apply in_range; lia|].
    unfold n_messages_at. apply in_or_app. left.
    replace (is_n expected_fields (k - 1)) with true
      by (symmetry; apply is_n_true_iff; split; [lia | exact Hn]).
    left. f_equal. lia.
  - intros (i & Hi & Hin). apply in_range in Hi. unfold n_messages_at in Hin.
    apply in_app_or in Hin as [Hin | Hin].
    + destruct (is_n expected_fields i); [|destruct Hin].
      destruct Hin as [Heq | []]. discriminate.
    + destruct (is_n generated_fields i) eqn:E; [|destruct Hin].
      destruct Hin as [[= <-] | []]. apply is_n_true_iff in E as [Hlt Hn].
      replace (i + 1 - 1) with i by lia. repeat split; try lia. exact Hn.
  - intros (Hk & Hlen & Hn). exists (k - 1). split; [apply in_range; lia|].
    unfold n_messages_at. apply in_or_app. right.
    replace (is_n generated_fields (k - 1)) with true
      by (symmetry; apply is_n_true_iff; split; [lia | exact Hn]).
    left. f_equal. lia.
Qed.

End NSearch.

(** ** position_analysis.py: the position map *)

Section PositionMap.

Import PositionAnalysis.

Lemma dict_set_new (d : dict) (k : Z) (v : string) :
  ~ In k (map fst d) -> dict_set d k v = d ++ [(k, v)].
Proof.
  induction d as [|[k' v'] d IH]; cbn [dict_set map fst In app]; intros Hk;
    [reflexivity|].
  replace (k' =? k) with false by (symmetry; apply Z.eqb_neq; tauto).
  f_equal. apply IH. tauto.
Qed.

Lemma fill_new_keys (items : list (Z * string)) :
  forall d,
    NoDup (map fst d ++ map fst items) ->
    fold_left (fun d p => dict_set d (fst p) (snd p)) items d = d ++ items.
Proof.
  induction items as [|[k v] items IH]; intros d Hnd; cbn [fold_left fst snd].
  - now rewrite app_nil_r.
  - cbn [map fst] in Hnd.
    rewrite dict_set_new.
    + rewrite IH; [now rewrite <- app_assoc|].
      rewrite map_app. cbn [map fst]. now rewrite <- app_assoc.
    + apply NoDup_remove_2 in Hnd. intros Hin. apply Hnd.
      apply in_or_app. now left.
Qed.

Lemma enumerate_cons (x : string) (l : list string) (start : Z) :
  enumerate (x :: l) start = (start, x) :: enumerate l (start + 1).
Proof.
  unfold enumerate.
  replace (start + len (x :: l)) with (start + 1 + len l)
    by (unfold len; cbn [List.length]; lia).
  rewrite range_cons by (pose proof (len_nonneg l); lia).
  reflexivity.
Qed.

Lemma keys_enumerate (l : list string) (start : Z) :
  map fst (enumerate l start) = range start (start + len l).
Proof.
  revert start. induction l as [|x l IH]; intros start.
  - unfold enumerate. cbn. now rewrite Z.add_0_r, range_empty by lia.
  - rewrite enumerate_cons. cbn [map fst]. rewrite IH.
    replace (start + len (x :: l)) with (start + 1 + len l)
      by (unfold len; cbn [List.length]; lia).
    now rewrite (range_cons start) by (pose proof (len_nonneg l); lia).
Qed.

Lemma values_enumerate (l : list string) (start : Z) :
  map snd (enumerate l start) = l.
Proof.
  revert start. induction l as [|x l IH]; intros start.
  - unfold enumerate. now rewrite combine_nil.
  - rewrite enumerate_cons. cbn [map snd]. now rewrite IH.
Qed.

Lemma dict_get_enumerate (l : list string) (default : string) :
  forall start pos,
    dict_get (enumerate l start) pos default
    = if (start <=? pos) && (pos <? start + len l)
      then field_at l (pos - start)
      else default.
Proof.
  induction l as [|x l IH]; intros start pos.
  - unfold enumerate. rewrite combine_nil. cbn [dict_get].
    destruct ((start <=? pos) && (pos <? start + len (@nil string))) eqn:E;
      [|reflexivity].
    apply andb_true_iff in E as [E1 E2].
    apply Z.leb_le in E1. apply Z.ltb_lt in E2.
    unfold len in E2. cbn [List.length] in E2. lia.
  - rewrite enumerate_cons. cbn [dict_get]. rewrite IH.
    pose proof (len_nonneg l) as Hl.
    assert (len (x :: l) = len l + 1) as Hlen
      by (unfold len; cbn [List.length]; lia).
    rewrite Hlen.
    destruct (start =? pos) eqn:E.
    + apply Z.eqb_eq in E. subst pos.
      replace (start <=? start) with true by (symmetry; apply Z.leb_le; lia).
      replace (start <? start + (len l + 1)) with true
        by (symmetry; apply Z.ltb_lt; lia).
      cbn [andb]. now rewrite Z.sub_diag.
    + apply Z.eqb_neq in E.
      destruct (start + 1 <=? pos) eqn:E1.
      * apply Z.leb_le in E1.
        replace (start <=? pos) with true by (symmetry; apply Z.leb_le; lia).
        replace (start + 1 + len l) with (start + (len l + 1)) by lia.
        cbn [andb].
        destruct (pos <? start + (len l + 1)); [|reflexivity].
        unfold field_at, item.
        replace (Z.to_nat (pos - start)) with (S (Z.to_nat (pos - (start + 1))))
          by lia.
        reflexivity.
      * apply Z.leb_gt in E1.
        replace (start <=? pos) with false by (symmetry; apply Z.leb_gt; lia).
        reflexivity.
Qed.

(** X16.  The position map built from a field sequence has the positions 1
    to [len(fields)] as its keys, in this order and once each, and looking a
    position up gives the field at that 1-based position, or [NOT_FOUND] for
    any position outside [1 .. len(fields)]. *)
Theorem position_map_lookup (fields : list string) (pos : Z) :
  map fst (position_map fields) = range 1 (1 + len fields)
  /\ map snd (position_map fields) = fields
  /\ lookup_position fields pos
     = if (1 <=? pos) && (pos <=? len fields)
       then field_at fields (pos - 1)
       else "NOT_FOUND"%string.
Proof.
  assert (position_map fields = enumerate fields 1) as Hmap.
  { unfold position_map. rewrite fill_new_keys; [reflexivity|].
    cbn [map app]. rewrite keys_enumerate. apply NoDup_range. }
  unfold lookup_position. rewrite Hmap.
  split; [apply keys_enumerate|].
  split.
  - apply values_enumerate.
  - rewrite dict_get_enumerate.
    replace (pos <? 1 + len fields) with (pos <=? len fields); [reflexivity|].
    destruct (pos <=? len fields) eqn:E; symmetry.
    + apply Z.ltb_lt. apply Z.leb_le in E. lia.
    + apply Z.ltb_ge. apply Z.leb_gt in E. lia.
Qed.

End PositionMap.
